(** * Configuration resolution of the route-tree generator

    Shallow embedding of [packages/router-generator/src/config.ts]:
    [configSchema], [resolveConfigPath], [readConfig], [getConfig] and
    [validateConfig], together with the parts of the JavaScript platform
    they call ([node:path], [String.prototype], object spread, zod).

    JavaScript strings are modelled by [string]; a character stands for
    one code unit in the range 0..255. *)

From Stdlib Require Import String Ascii List Bool Arith Lia.
From Stdlib Require Import DecimalString.
Import ListNotations.
Local Open Scope list_scope.
Local Open Scope string_scope.
Set Warnings "-register-all".

(* ================================================================== *)
(** * JavaScript values and thrown errors *)
(* ================================================================== *)

(** The values a configuration object is built from: JSON data plus
    [undefined].  An object is its list of own enumerable properties in
    insertion order.  The payload of a number plays no role in this
    module, natural numbers stand for it. *)
Inductive jsval : Type :=
| VUndef
| VNull
| VBool (b : bool)
| VNum (n : nat)
| VStr (s : string)
| VArr (items : list jsval)
| VObj (props : list (string * jsval)).

(** The three messages [validateConfig] throws. *)
Inductive message : Type :=
| MsgDeprecatedFlag    (* The "experimental.enableCodeSplitting" flag has been made stable ... *)
| MsgTokenCollision    (* The "indexToken" and "routeToken" options must be different. *)
| MsgReservedPrefix.   (* The "routeFileIgnorePrefix" cannot be an underscore ("_"). ... *)

(** What a call can throw.  A [ZodError] carries the paths of its issues. *)
Inductive error : Type :=
| ZodError (issues : list (list string))
| TypeError
| HostError (what : string)      (* thrown by the file system, JSON.parse or a loaded module *)
| Error (m : message).

Inductive result (A : Type) : Type :=
| Ok (a : A)
| Throw (e : error).
Arguments Ok {A} a.
Arguments Throw {A} e.

Definition bind {A B : Type} (r : result A) (k : A -> result B) : result B :=
  match r with
  | Ok a => k a
  | Throw e => Throw e
  end.

Notation "x <- r ;; k" := (bind r (fun x => k))
  (at level 61, r at next level, right associativity).

(* ================================================================== *)
(** * Strings *)
(* ================================================================== *)

Definition slash : ascii := "/"%char.
Definition dot : ascii := "."%char.

Definition is_empty (s : string) : bool :=
  match s with
  | EmptyString => true
  | String _ _ => false
  end.

(** [s.endsWith(suffix)] *)
Fixpoint ends_with (suffix s : string) : bool :=
  if String.eqb s suffix then true
  else match s with
       | EmptyString => false
       | String _ r => ends_with suffix r
       end.

(** White space and line terminators removed by [String.prototype.trim],
    among the code units 0..255: TAB, LF, VT, FF, CR, SPACE, NBSP. *)
Definition is_space (c : ascii) : bool :=
  let n := nat_of_ascii c in
  ((9 <=? n)%nat && (n <=? 13)%nat) || (n =? 32)%nat || (n =? 160)%nat.

Fixpoint trim_start (s : string) : string :=
  match s with
  | EmptyString => EmptyString
  | String c r => if is_space c then trim_start r else s
  end.

(** Drops trailing white space: a character is kept when it is not a
    space or when something is kept after it. *)
Fixpoint trim_end (s : string) : string :=
  match s with
  | EmptyString => EmptyString
  | String c r =>
      match trim_end r with
      | EmptyString => if is_space c then EmptyString else String c EmptyString
      | r' => String c r'
      end
  end.

(** [s.trim()] *)
Definition trim (s : string) : string := trim_end (trim_start s).

(** [s.replace(/\.(ts|tsx)$/, '.js')]: the pattern is anchored at the end
    of the string (no [m] flag), so it matches at most once, on a final
    [.ts] or [.tsx]. *)
Fixpoint replace_ts_ext (s : string) : string :=
  if String.eqb s ".ts" || String.eqb s ".tsx" then ".js"
  else match s with
       | EmptyString => EmptyString
       | String c r => String c (replace_ts_ext r)
       end.

(** Decimal spelling of an array index, as in a property key. *)
Definition index_key (i : nat) : string :=
  NilEmpty.string_of_uint (Nat.to_uint i).

(* ================================================================== *)
(** * node:path (POSIX) *)
(* ================================================================== *)

Module path.

(** [p.split('/')]: the pieces between separators, empty pieces kept. *)
Fixpoint segments (p : string) : list string :=
  match p with
  | EmptyString => [EmptyString]
  | String c r =>
      if Ascii.eqb c slash then EmptyString :: segments r
      else match segments r with
           | [] => [String c EmptyString]
           | h :: t => String c h :: t
           end
  end.

(** [segs.join('/')] *)
Fixpoint join_segments (segs : list string) : string :=
  match segs with
  | [] => EmptyString
  | [s] => s
  | s :: rest => s ++ String slash (join_segments rest)
  end.

(** [path.isAbsolute(p)] *)
Definition isAbsolute (p : string) : bool :=
  match p with
  | String c _ => Ascii.eqb c slash
  | EmptyString => false
  end.

(** One step of [normalizeString]: [stack] holds the components kept so
    far, innermost last.  Empty and [.] components are dropped; [..]
    removes the last kept component, and where there is none (or it is
    itself [..]) it is kept only when the path may climb above its
    root. *)
Definition normalize_step (allowAboveRoot : bool) (stack : list string)
           (seg : string) : list string :=
  if String.eqb seg "" || String.eqb seg "." then stack
  else if String.eqb seg ".." then
    match rev stack with
    | [] => if allowAboveRoot then [".."] else []
    | top :: below =>
        if String.eqb top ".."
        then (if allowAboveRoot then (stack ++ [".."])%list else stack)
        else rev below
    end
  else (stack ++ [seg])%list.

Definition normalizeString (p : string) (allowAboveRoot : bool) : string :=
  join_segments (fold_left (normalize_step allowAboveRoot) (segments p) []).

(** The right-to-left loop of [path.resolve]: arguments are prepended,
    rightmost first, until the accumulated path is absolute; empty
    arguments are skipped. *)
Fixpoint collect (rev_args : list string) (resolvedPath : string)
  : string * bool :=
  match rev_args with
  | [] => (resolvedPath, false)
  | p :: rest =>
      if is_empty p then collect rest resolvedPath
      else
        let resolvedPath := p ++ String slash resolvedPath in
        if isAbsolute p then (resolvedPath, true)
        else collect rest resolvedPath
  end.

(** [path.resolve(...args)] in a process whose working directory is
    [cwd]; the working directory is consulted last, and only when the
    arguments did not give an absolute path. *)
Definition resolve (cwd : string) (args : list string) : string :=
  let '(resolvedPath, resolvedAbsolute) := collect (rev args ++ [cwd])%list "" in
  let normalized := normalizeString resolvedPath (negb resolvedAbsolute) in
  if resolvedAbsolute then String slash normalized
  else if is_empty normalized then "." else normalized.

(** The last component of a path, trailing separators ignored. *)
Definition last_component (p : string) : string :=
  match filter (fun s => negb (is_empty s)) (rev (segments p)) with
  | [] => EmptyString
  | b :: _ => b
  end.

(** The part of a component from its last dot on, with what precedes
    that dot; [None] when the component has no dot. *)
Fixpoint split_last_dot (b : string) : option (string * string) :=
  match b with
  | EmptyString => None
  | String c r =>
      match split_last_dot r with
      | Some (before, ext) => Some (String c before, ext)
      | None => if Ascii.eqb c dot then Some (EmptyString, b) else None
      end
  end.

(** [path.extname(p)]: from the last dot of the last component to its
    end; empty when there is no dot, when the component starts with
    its only dot, or when the component is [..]. *)
Definition extname (p : string) : string :=
  let b := last_component p in
  match split_last_dot b with
  | None => EmptyString
  | Some (before, ext) =>
      if is_empty before || String.eqb b ".." then EmptyString else ext
  end.

End path.

(* ================================================================== *)
(** * Objects *)
(* ================================================================== *)

(** The value an own property [k] holds.  Where a key is listed twice,
    the later entry is the one in force, as in an object literal. *)
Fixpoint own (k : string) (props : list (string * jsval)) : option jsval :=
  match props with
  | [] => None
  | (k', v) :: rest =>
      match own k rest with
      | Some w => Some w
      | None => if String.eqb k' k then Some v else None
      end
  end.

(** [k in o] *)
Definition has_key (k : string) (props : list (string * jsval)) : bool :=
  match own k props with
  | Some _ => true
  | None => false
  end.

(** [o[k]]: [undefined] when the key is absent. *)
Definition get_prop (k : string) (props : list (string * jsval)) : jsval :=
  match own k props with
  | Some v => v
  | None => VUndef
  end.

Fixpoint overwrite (k : string) (v : jsval) (props : list (string * jsval))
  : list (string * jsval) :=
  match props with
  | [] => []
  | (k', v') :: rest =>
      (k', if String.eqb k' k then v else v') :: overwrite k v rest
  end.

(** [o[k] = v]: an existing key keeps its place, a new one goes last. *)
Definition set_prop (k : string) (v : jsval) (props : list (string * jsval))
  : list (string * jsval) :=
  if has_key k props then overwrite k v props else (props ++ [(k, v)])%list.

Fixpoint indexed (i : nat) (items : list jsval) : list (string * jsval) :=
  match items with
  | [] => []
  | v :: rest => (index_key i, v) :: indexed (S i) rest
  end.

Fixpoint characters (s : string) : list jsval :=
  match s with
  | EmptyString => []
  | String c r => VStr (String c EmptyString) :: characters r
  end.

(** The own enumerable properties a spread copies out of a value:
    those of an object, the indices of an array or of a string, and
    nothing for [undefined], [null], booleans and numbers. *)
Definition own_props (v : jsval) : list (string * jsval) :=
  match v with
  | VObj props => props
  | VArr items => indexed 0 items
  | VStr s => indexed 0 (characters s)
  | _ => []
  end.

(** [{ ...a, ...b }]: a fresh object that receives the properties of [a]
    and then those of [b], one assignment after the other. *)
Definition spread (a b : jsval) : jsval :=
  VObj (fold_left (fun o kv => set_prop (fst kv) (snd kv) o)
                  (own_props a ++ own_props b)%list []).

(** [v.k] on a value that may not be an object; [undefined] and [null]
    have no properties to read. *)
Definition member (v : jsval) (k : string) : result jsval :=
  match v with
  | VUndef | VNull => Throw TypeError
  | VObj props => Ok (get_prop k props)
  | _ => Ok VUndef
  end.

(** [config.k] for a configuration object. *)
Definition field (k : string) (config : jsval) : jsval :=
  match config with
  | VObj props => get_prop k props
  | _ => VUndef
  end.

(** [config.k = v] *)
Definition assign (k : string) (v : jsval) (config : jsval) : jsval :=
  match config with
  | VObj props => VObj (set_prop k v props)
  | other => other
  end.

(** Conversion to boolean in a condition. *)
Definition truthy (v : jsval) : bool :=
  match v with
  | VUndef | VNull => false
  | VBool b => b
  | VNum n => negb (n =? 0)%nat
  | VStr s => negb (is_empty s)
  | VArr _ | VObj _ => true
  end.

(** [a === b]; two objects or arrays held by different properties are
    different references. *)
Definition strict_eq (a b : jsval) : bool :=
  match a, b with
  | VUndef, VUndef => true
  | VNull, VNull => true
  | VBool x, VBool y => Bool.eqb x y
  | VNum x, VNum y => (x =? y)%nat
  | VStr x, VStr y => String.eqb x y
  | _, _ => false
  end.

(* ================================================================== *)
(** * zod *)
(* ================================================================== *)

(** The schema combinators [configSchema] is built from. *)
Inductive schema : Type :=
| ZString                                   (* z.string() *)
| ZBoolean                                  (* z.boolean() *)
| ZEnum (options : list string)             (* z.enum([...]) *)
| ZArray (element : schema)                 (* z.array(s) *)
| ZObject (shape : list (string * schema))  (* z.object({...}) *)
| ZOptional (inner : schema)                (* s.optional() *)
| ZDefault (inner : schema) (value : jsval) (* s.default(value) *)
| ZOr (first second : schema)               (* a.or(b) *)
| ZCustom (check : jsval -> option jsval).  (* a schema declared elsewhere *)

(** Outcome of [safeParse]: the parsed data, or the paths of the issues
    found (at least one). *)
Inductive parsed : Type :=
| Valid (data : jsval)
| Invalid (issue : list string) (more : list (list string)).

(** The issues of a child, reported under the key [k] of its parent. *)
Definition under (k : string) (issue : list string) (more : list (list string))
  : list (list string) :=
  (k :: issue) :: map (cons k) more.

Definition conclude (data : jsval) (issues : list (list string)) : parsed :=
  match issues with
  | [] => Valid data
  | issue :: more => Invalid issue more
  end.

(** Parsing the items of an array: every item is parsed, the issues of
    all of them are reported under their index. *)
Fixpoint parse_items (parse_one : jsval -> parsed) (i : nat) (items : list jsval)
  : list jsval * list (list string) :=
  match items with
  | [] => ([], [])
  | v :: rest =>
      let '(vs, issues) := parse_items parse_one (S i) rest in
      match parse_one v with
      | Valid d => (d :: vs, issues)
      | Invalid issue more => (vs, (under (index_key i) issue more ++ issues)%list)
      end
  end.

(** Parsing the keys of an object schema's shape against the properties
    of the input: a missing key reads as [undefined]; a key whose parsed
    value is [undefined] appears in the output only when the input had
    it; the issues of all keys are reported under their key. *)
Definition parse_fields {S : Type} (parse_one : S -> jsval -> parsed)
           (props : list (string * jsval))
  : list (string * S) -> list (string * jsval) * list (list string) :=
  fix keys (sh : list (string * S)) :=
    match sh with
    | [] => ([], [])
    | (k, sk) :: rest =>
        let '(out, issues) := keys rest in
        match parse_one sk (get_prop k props) with
        | Valid VUndef =>
            (if has_key k props then (k, VUndef) :: out else out, issues)
        | Valid d => ((k, d) :: out, issues)
        | Invalid issue more => (out, (under k issue more ++ issues)%list)
        end
    end.

(** [schema.safeParse(v)].  An object schema reads the keys of its shape
    from the input and drops the keys it does not know; a default is
    parsed by the schema it is attached to; a union answers with its
    first option that accepts the input. *)
Fixpoint safeParse (s : schema) (v : jsval) {struct s} : parsed :=
  match s with
  | ZString => match v with VStr _ => Valid v | _ => Invalid [] [] end
  | ZBoolean => match v with VBool _ => Valid v | _ => Invalid [] [] end
  | ZEnum options =>
      match v with
      | VStr x => if existsb (String.eqb x) options then Valid v else Invalid [] []
      | _ => Invalid [] []
      end
  | ZArray element =>
      match v with
      | VArr items =>
          let '(vs, issues) := parse_items (safeParse element) 0 items in
          conclude (VArr vs) issues
      | _ => Invalid [] []
      end
  | ZObject shape =>
      match v with
      | VObj props =>
          let '(out, issues) := parse_fields safeParse props shape in
          conclude (VObj out) issues
      | _ => Invalid [] []
      end
  | ZOptional inner =>
      match v with
      | VUndef => Valid VUndef
      | _ => safeParse inner v
      end
  | ZDefault inner value =>
      match v with
      | VUndef => safeParse inner value
      | _ => safeParse inner v
      end
  | ZOr first second =>
      match safeParse first v with
      | Valid d => Valid d
      | Invalid _ _ =>
          match safeParse second v with
          | Valid d => Valid d
          | Invalid _ _ => Invalid [] []
          end
      end
  | ZCustom check =>
      match check v with
      | Some d => Valid d
      | None => Invalid [] []
      end
  end.

(** [schema.parse(v)]: the data, or a thrown [ZodError]. *)
Definition parse (s : schema) (v : jsval) : result jsval :=
  match safeParse s v with
  | Valid d => Ok d
  | Invalid issue more => Throw (ZodError (issue :: more))
  end.

(* ================================================================== *)
(** * config.ts *)
(* ================================================================== *)

Definition quote : string := String (ascii_of_nat 34) EmptyString.
Definition newline : string := String (ascii_of_nat 10) EmptyString.

Definition defaultTemplate_routeTemplate : string :=
  String.concat ""
    [ "%%tsrImports%%";
      newline ++ newline;
      "%%tsrExportStart%%{" ++ newline ++ " component: RouteComponent" ++ newline
        ++ " }%%tsrExportEnd%%" ++ newline ++ newline;
      "function RouteComponent() { return <div>Hello " ++ quote ++ "%%tsrPath%%"
        ++ quote ++ "!</div> };" ++ newline ].

Definition defaultTemplate_apiTemplate : string :=
  String.concat ""
    [ "import { json } from " ++ quote ++ "@tanstack/start" ++ quote ++ ";" ++ newline;
      "%%tsrImports%%";
      newline ++ newline;
      "%%tsrExportStart%%{ GET: ({ request, params }) => { return json({ message:'Hello "
        ++ quote ++ "%%tsrPath%%" ++ quote ++ "!' }) }}%%tsrExportEnd%%" ++ newline ].

Definition defaultTemplate : jsval :=
  VObj [ ("routeTemplate", VStr defaultTemplate_routeTemplate);
         ("apiTemplate", VStr defaultTemplate_apiTemplate) ].

(** The state of the process's surroundings at the time of a call. *)
Record World : Type := {
  (** [process.cwd()] *)
  cwd : string;
  (** [existsSync(p)] *)
  existsSync : string -> bool;
  (** [readFileSync(p, 'utf-8')] *)
  readFileSync : string -> result string;
  (** [await tsImport(url, parent)]: the namespace of the module, obtained
      by running it. *)
  tsImport : string -> string -> result jsval
}.

Section Config.

(** Declared in [./filesystem/virtual/config]. *)
Variable virtualRootRouteSchema : schema.
(** [JSON.parse] *)
Variable JSON_parse : string -> result jsval.
(** [pathToFileURL(p).href] *)
Variable pathToFileURL : string -> string.

Definition configShape : list (string * schema) :=
  [ ("virtualRouteConfig", ZOptional (ZOr virtualRootRouteSchema ZString));
    ("routeFilePrefix", ZOptional ZString);
    ("routeFileIgnorePrefix", ZDefault (ZOptional ZString) (VStr "-"));
    ("routeFileIgnorePattern", ZOptional ZString);
    ("routesDirectory", ZDefault (ZOptional ZString) (VStr "./src/routes"));
    ("generatedRouteTree",
      ZDefault (ZOptional ZString) (VStr "./src/routeTree.gen.ts"));
    ("quoteStyle", ZDefault (ZOptional (ZEnum ["single"; "double"])) (VStr "single"));
    ("semicolons", ZDefault (ZOptional ZBoolean) (VBool false));
    ("disableTypes", ZDefault (ZOptional ZBoolean) (VBool false));
    ("addExtensions", ZDefault (ZOptional ZBoolean) (VBool false));
    ("disableLogging", ZDefault (ZOptional ZBoolean) (VBool false));
    ("disableManifestGeneration", ZDefault (ZOptional ZBoolean) (VBool false));
    ("apiBase", ZDefault (ZOptional ZString) (VStr "/api"));
    ("routeTreeFileHeader",
      ZDefault (ZOptional (ZArray ZString))
        (VArr [ VStr "/* eslint-disable */";
                VStr "// @ts-nocheck";
                VStr "// noinspection JSUnusedGlobalSymbols" ]));
    ("routeTreeFileFooter", ZDefault (ZOptional (ZArray ZString)) (VArr []));
    ("autoCodeSplitting", ZOptional ZBoolean);
    ("indexToken", ZDefault (ZOptional ZString) (VStr "index"));
    ("routeToken", ZDefault (ZOptional ZString) (VStr "route"));
    ("pathParamsAllowedCharacters",
      ZOptional (ZArray (ZEnum [";"; ":"; "@"; "&"; "="; "+"; "$"; ","])));
    ("customScaffolding",
      ZDefault
        (ZOptional
           (ZObject
              [ ("routeTemplate",
                  ZDefault (ZOptional ZString) (VStr defaultTemplate_routeTemplate));
                ("apiTemplate",
                  ZDefault (ZOptional ZString) (VStr defaultTemplate_apiTemplate)) ]))
        defaultTemplate);
    ("experimental",
      ZOptional (ZObject [ ("enableCodeSplitting", ZOptional ZBoolean) ])) ].

Definition configSchema : schema := ZObject configShape.

Definition resolveConfigPath (w : World) (configDirectory : string)
  : option string :=
  let jsConfigPath := path.resolve (cwd w) [configDirectory; "tsr.config.js"] in
  let jsonConfigPath := path.resolve (cwd w) [configDirectory; "tsr.config.json"] in
  if existsSync w jsonConfigPath then Some jsonConfigPath
  else if existsSync w jsConfigPath then Some jsConfigPath
  else None.

(** A reader of configuration files. *)
Definition loader : Type := World -> string -> result jsval.

Definition readConfig_json : loader :=
  fun w configFilePathJson =>
    text <- readFileSync w configFilePathJson ;;
    JSON_parse text.

Definition readConfig_js : loader :=
  fun w configFilePathJs =>
    let fileURL := pathToFileURL configFilePathJs in
    namespace <- tsImport w fileURL "./" ;;
    member namespace "default".

(** [readConfig[extname]] *)
Definition readConfig (extname : string) : option loader :=
  if String.eqb extname ".json" then Some readConfig_json
  else if String.eqb extname ".js" then Some readConfig_js
  else None.

(** A method call or a [path] call that needs a string. *)
Definition as_string (v : jsval) : result string :=
  match v with
  | VStr s => Ok s
  | _ => Throw TypeError
  end.

(** Lines 110-129 of [getConfig]: the configuration read from the file
    (when one is found and a reader knows its extension) with the inline
    configuration spread over it, parsed by the schema; the inline
    configuration alone otherwise. *)
Definition mergedConfig (w : World) (inlineConfig : jsval)
           (configDirectory : string) : result jsval :=
  let configFilePath := resolveConfigPath w configDirectory in
  config <-
    match configFilePath with
    | Some configFilePath =>
        let extname := path.extname configFilePath in
        match readConfig extname with
        | Some configLoader =>
            fileSystemConfig <- configLoader w configFilePath ;;
            config <- parse configSchema (spread fileSystemConfig inlineConfig) ;;
            Ok (Some config)
        | None => Ok None
        end
    | None => Ok None
    end ;;
  match config with
  | Some config => Ok config
  | None => parse configSchema inlineConfig
  end.

(** Lines 131-137: "If typescript is disabled, make sure the generated
    route tree is a .js file". *)
Definition rewriteExtension (config : jsval) : result jsval :=
  if truthy (field "disableTypes" config) then
    generatedRouteTree <- as_string (field "generatedRouteTree" config) ;;
    Ok (assign "generatedRouteTree" (VStr (replace_ts_ext generatedRouteTree)) config)
  else Ok config.

(** Lines 139-163: "if a configDirectory is used, paths should be
    relative to that directory". *)
Definition resolvePaths (w : World) (configDirectory : string) (config : jsval)
  : result jsval :=
  if negb (is_empty configDirectory) then
    if path.isAbsolute configDirectory then
      routesDirectory <- as_string (field "routesDirectory" config) ;;
      let config :=
        assign "routesDirectory"
          (VStr (path.resolve (cwd w) [configDirectory; routesDirectory])) config in
      generatedRouteTree <- as_string (field "generatedRouteTree" config) ;;
      Ok (assign "generatedRouteTree"
            (VStr (path.resolve (cwd w) [configDirectory; generatedRouteTree])) config)
    else
      routesDirectory <- as_string (field "routesDirectory" config) ;;
      let config :=
        assign "routesDirectory"
          (VStr (path.resolve (cwd w) [cwd w; configDirectory; routesDirectory]))
          config in
      generatedRouteTree <- as_string (field "generatedRouteTree" config) ;;
      Ok (assign "generatedRouteTree"
            (VStr (path.resolve (cwd w) [cwd w; configDirectory; generatedRouteTree]))
            config)
  else Ok config.

(** [config.experimental?.enableCodeSplitting] *)
Definition experimental_enableCodeSplitting (config : jsval) : jsval :=
  match field "experimental" config with
  | VObj props => get_prop "enableCodeSplitting" props
  | _ => VUndef
  end.

Definition is_undefined (v : jsval) : bool :=
  match v with
  | VUndef => true
  | _ => false
  end.

(** [validateConfig(config)]: three checks, the first that fails throws
    (the deprecation message is written to the console as well). *)
Definition validateConfig (config : jsval) : result jsval :=
  if negb (is_undefined (experimental_enableCodeSplitting config)) then
    Throw (Error MsgDeprecatedFlag)
  else if strict_eq (field "indexToken" config) (field "routeToken" config) then
    Throw (Error MsgTokenCollision)
  else
    let routeFileIgnorePrefix := field "routeFileIgnorePrefix" config in
    if truthy routeFileIgnorePrefix then
      text <- as_string routeFileIgnorePrefix ;;
      if String.eqb (trim text) "_" then Throw (Error MsgReservedPrefix)
      else Ok config
    else Ok config.

(** The default of the first parameter: [inlineConfig = {}]. *)
Definition inline_or_empty (inlineConfig : jsval) : jsval :=
  match inlineConfig with
  | VUndef => VObj []
  | given => given
  end.

(** Lines 107-109; [None] stands for a directory that was not passed. *)
Definition directory_or_cwd (w : World) (configDirectory : option string)
  : string :=
  match configDirectory with
  | None => cwd w
  | Some given => given
  end.

(** [getConfig(inlineConfig, configDirectory)] *)
Definition getConfig (w : World) (inlineConfig : jsval)
           (configDirectory : option string) : result jsval :=
  let inlineConfig := inline_or_empty inlineConfig in
  let configDirectory := directory_or_cwd w configDirectory in
  config <- mergedConfig w inlineConfig configDirectory ;;
  config <- rewriteExtension config ;;
  config <- resolvePaths w configDirectory config ;;
  validateConfig config.

(* ================================================================== *)
(** * Vocabulary of the statements *)
(* ================================================================== *)

(** A file name: not empty, not [.] or [..], and without a separator. *)
Fixpoint no_slash (s : string) : bool :=
  match s with
  | EmptyString => true
  | String c r => negb (Ascii.eqb c slash) && no_slash r
  end.

Definition plain_name (n : string) : bool :=
  no_slash n && negb (String.eqb n "") && negb (String.eqb n ".")
  && negb (String.eqb n "..").

(** [join_segments] of a list that ends with [n]: what is put in front
    of [n]. *)
Definition join_prefix (st : list string) : string :=
  match st with
  | [] => ""
  | _ => path.join_segments st ++ "/"
  end.

(** The value an object or other spread operand supplies for a key. *)
Definition supplied (k : string) (v : jsval) : option jsval := own k (own_props v).

(** The default a schema declares, [undefined] when it declares none. *)
Definition declared_default (s : schema) : jsval :=
  match s with
  | ZDefault _ value => value
  | _ => VUndef
  end.

(** Schemas that hand back the very value they accept: strings,
    booleans and enum members. *)
Definition atom (s : schema) : bool :=
  match s with
  | ZString | ZBoolean | ZEnum _ => true
  | _ => false
  end.

(** Schemas of the options whose defined values are taken verbatim: an
    optional atom or array of atoms, with or without a default. *)
Definition verbatim (s : schema) : bool :=
  match s with
  | ZOptional (ZArray e) | ZDefault (ZOptional (ZArray e)) _ => atom e
  | ZOptional b | ZDefault (ZOptional b) _ => atom b
  | _ => false
  end.

(** How an option of the merged configuration comes out of the raw value
    [v] selected for it: it is [v] read through the option's schema [s];
    where the option holds a string, a boolean, an enum member or an
    array of those, a defined [v] is the outcome itself; an [undefined]
    [v] gives the declared default. *)
Definition resolves (s : schema) (v r : jsval) : Prop :=
  safeParse s v = Valid r
  /\ (verbatim s = true -> v <> VUndef -> r = v)
  /\ (v = VUndef -> r = declared_default s).

(** A configuration whose two paths are the strings [rd] and [gt]. *)
Definition has_paths (config : jsval) (rd gt : string) : Prop :=
  (exists props, config = VObj props)
  /\ field "routesDirectory" config = VStr rd
  /\ field "generatedRouteTree" config = VStr gt.

(** The configuration after the extension step. *)
Definition rewritten (config : jsval) (gt : string) : jsval :=
  if truthy (field "disableTypes" config)
  then assign "generatedRouteTree" (VStr (replace_ts_ext gt)) config
  else config.

Definition rewritten_path (config : jsval) (gt : string) : string :=
  if truthy (field "disableTypes" config) then replace_ts_ext gt else gt.

(** The arguments [path.resolve] gets in front of a configured path. *)
Definition anchor (w : World) (configDirectory : string) : list string :=
  if path.isAbsolute configDirectory then [configDirectory]
  else [cwd w; configDirectory].

(** The configuration after the path step. *)
Definition placed (w : World) (configDirectory : string) (config : jsval)
           (rd gt : string) : jsval :=
  if is_empty configDirectory then config
  else
    assign "generatedRouteTree"
      (VStr (path.resolve (cwd w) (anchor w configDirectory ++ [gt])))
      (assign "routesDirectory"
         (VStr (path.resolve (cwd w) (anchor w configDirectory ++ [rd]))) config).

(* ================================================================== *)
(** * Sample surroundings *)
(* ================================================================== *)

(** A process in [dir] whose file system holds no configuration file. *)
Definition bare_world (dir : string) : World :=
  {| cwd := dir;
     existsSync := fun _ => false;
     readFileSync := fun _ => Throw (HostError "ENOENT");
     tsImport := fun _ _ => Throw (HostError "ERR_MODULE_NOT_FOUND") |}.

(** A process in [dir] where [file] is the only file; its text is [text],
    and loading it as a module yields [namespace]. *)
Definition one_file_world (dir file text : string) (namespace : jsval) : World :=
  {| cwd := dir;
     existsSync := fun p => String.eqb p file;
     readFileSync := fun p =>
       if String.eqb p file then Ok text else Throw (HostError "ENOENT");
     tsImport := fun _ _ => Ok namespace |}.

(** Stand-ins for the collaborators declared outside this module. *)
Definition no_virtual_routes : schema := ZCustom (fun _ => None).
Definition file_url (p : string) : string := "file://" ++ p.

(** The text of a configuration file that declares one option. *)
Definition sample_text : string :=
  "{" ++ quote ++ "routesDirectory" ++ quote ++ ":" ++ quote ++ "a" ++ quote ++ "}".

(** A reader that knows two texts. *)
Definition sample_JSON_parse (text : string) : result jsval :=
  if String.eqb text "{}" then Ok (VObj [])
  else if String.eqb text sample_text
       then Ok (VObj [("routesDirectory", VStr "a")])
  else Throw (HostError "SyntaxError").

(** A process in [/proj], where [tsr.config.json] holds [sample_text]. *)
Definition json_world : World :=
  one_file_world "/proj" "/proj/tsr.config.json" sample_text (VObj []).

(** A process in [/proj], where both configuration files exist. *)
Definition both_files_world : World :=
  {| cwd := "/proj";
     existsSync := fun p =>
       String.eqb p "/proj/tsr.config.json" || String.eqb p "/proj/tsr.config.js";
     readFileSync := fun _ => Ok "{}";
     tsImport := fun _ _ => Ok (VObj [("default", VObj [])]) |}.

(** A process in [/proj], where [tsr.config.js] is a module whose default
    export depends on the moment it is run; [stamp] is what the run that
    the call triggers comes up with. *)
Definition script_world (stamp : string) : World :=
  one_file_world "/proj" "/proj/tsr.config.js"
    "export default { apiBase: '/' + Date.now() }"
    (VObj [("default", VObj [("apiBase", VStr stamp)])]).

(** The same process seen by a loader that knows this one module only. *)
Definition script_world_only (stamp : string) : World :=
  {| cwd := "/proj";
     existsSync := existsSync (script_world stamp);
     readFileSync := readFileSync (script_world stamp);
     tsImport := fun url parent =>
       if String.eqb url "file:///proj/tsr.config.js"
       then tsImport (script_world stamp) url parent
       else Throw (HostError "ERR_MODULE_NOT_FOUND") |}.

(** The module of the loader's own test: three options declared. *)
Definition test_module : jsval :=
  VObj [ ("default",
          VObj [ ("disableLogging", VBool true);
                 ("routesDirectory", VStr "./configured-routes-path");
                 ("generatedRouteTree", VStr "./routeTree.gen.ts") ]) ].

Definition test_world : World :=
  one_file_world "/repo" "/repo/tests/config/js-config-module/tsr.config.js"
    "export default { ... }" test_module.

(** An inline configuration that trips all three checks. *)
Definition flagged_inline : jsval :=
  VObj [ ("experimental", VObj [("enableCodeSplitting", VBool false)]);
         ("indexToken", VStr "x");
         ("routeToken", VStr "x");
         ("routeFileIgnorePrefix", VStr "_") ].

(* ================================================================== *)
(** * Vocabulary of the further statements *)
(* ================================================================== *)

(** What the configuration file of directory [d] gave: [Some file] when a
    file was found and its reader returned [file], [None] when the
    directory holds no configuration file. *)
Definition loaded (w : World) (d : string) (file : option jsval) : Prop :=
  match file with
  | Some f =>
      exists p l,
        resolveConfigPath w d = Some p
        /\ readConfig (path.extname p) = Some l
        /\ l w p = Ok f
  | None => resolveConfigPath w d = None
  end.

(** The value handed to [configSchema.parse] in either case. *)
Definition raw (file : option jsval) (inlineConfig : jsval) : jsval :=
  match file with
  | Some f => spread f inlineConfig
  | None => inlineConfig
  end.

(** Two values of the same type: both strings, both booleans, ... *)
Definition same_kind (a b : jsval) : bool :=
  match a, b with
  | VUndef, VUndef | VNull, VNull | VBool _, VBool _ | VNum _, VNum _
  | VStr _, VStr _ | VArr _, VArr _ | VObj _, VObj _ => true
  | _, _ => false
  end.

(** A path that names the file [n]: its last component is [n], with no
    separator behind it. *)
Definition names_file (p n : string) : Prop :=
  plain_name n = true /\ (p = n \/ exists q, p = q ++ String slash n).

(** The same surroundings with another module loader, or with other file
    contents. *)
Definition with_tsImport (w : World) (f : string -> string -> result jsval) : World :=
  {| cwd := cwd w; existsSync := existsSync w; readFileSync := readFileSync w;
     tsImport := f |}.

Definition with_readFileSync (w : World) (g : string -> result string) : World :=
  {| cwd := cwd w; existsSync := existsSync w; readFileSync := g;
     tsImport := tsImport w |}.

(** A process in [/proj], where [tsr.config.json] holds a text that is
    not JSON. *)
Definition broken_json_world : World :=
  one_file_world "/proj" "/proj/tsr.config.json" "{" (VObj []).

(** A process in [/proj], where loading [tsr.config.js] throws. *)
Definition failing_module_world : World :=
  {| cwd := "/proj";
     existsSync := fun p => String.eqb p "/proj/tsr.config.js";
     readFileSync := fun _ => Throw (HostError "ENOENT");
     tsImport := fun _ _ => Throw (HostError "boom") |}.

(** A process in [/proj], where [tsr.config.js] is a module without
    default export. *)
Definition no_default_world : World :=
  one_file_world "/proj" "/proj/tsr.config.js" "export const x = 1"
    (VObj [("x", VNum 1)]).

(* ================================================================== *)
(** * The platform functions at sample inputs *)
(* ================================================================== *)

Example resolve_abs : path.resolve "/w" ["/proj"; "./src/routes"] = "/proj/src/routes".
Proof. reflexivity. Qed.
Example resolve_rel : path.resolve "/w" ["a/../b"; "../c/"] = "/w/c".
Proof. reflexivity. Qed.
Example resolve_up : path.resolve "/" [".."; ".."; "x.ts/"] = "/x.ts".
Proof. reflexivity. Qed.
Example resolve_nocwd : path.resolve "" ["a/.."; ".."; "../b"] = "../../b".
Proof. reflexivity. Qed.
Example ext1 : path.extname "/p/tsr.config.json" = ".json".
Proof. reflexivity. Qed.
Example ext2 : path.extname "/p/.bashrc" = "".
Proof. reflexivity. Qed.
Example ext3 : path.extname "/p/a.b//" = ".b".
Proof. reflexivity. Qed.
Example ext4 : path.extname "/p/..a" = ".a".
Proof. reflexivity. Qed.
Example ext5 : path.extname ".." = "".
Proof. reflexivity. Qed.
Example ext6 : path.extname "a." = ".".
Proof. reflexivity. Qed.
Example trim1 : trim "  _ " = "_".
Proof. reflexivity. Qed.
Example trim2 : trim " a b  " = "a b".
Proof. reflexivity. Qed.
Example rep1 : replace_ts_ext "./src/routeTree.gen.ts" = "./src/routeTree.gen.js".
Proof. reflexivity. Qed.
Example rep2 : replace_ts_ext "a.ts.tsx" = "a.ts.js".
Proof. reflexivity. Qed.
Example rep3 : replace_ts_ext "a.ts/" = "a.ts/".
Proof. reflexivity. Qed.

(* ================================================================== *)
(** * Facts about strings *)
(* ================================================================== *)

Lemma append_empty_r (s : string) : s ++ "" = s.
Proof. induction s as [|c r IH]; simpl; [reflexivity | now rewrite IH]. Qed.

Lemma append_assoc (a b c : string) : (a ++ b) ++ c = a ++ (b ++ c).
Proof. induction a as [|x r IH]; simpl; [reflexivity | now rewrite IH]. Qed.

Lemma append_cancel_l (a b c : string) : a ++ b = a ++ c -> b = c.
Proof.
  induction a as [|x r IH]; simpl; intros H; [exact H |].
  injection H as H. now apply IH.
Qed.

Lemma ends_with_cons (suffix : string) (c : ascii) (r : string) :
  ends_with suffix (String c r)
  = String.eqb (String c r) suffix || ends_with suffix r.
Proof.
  change (ends_with suffix (String c r))
    with (if String.eqb (String c r) suffix then true else ends_with suffix r).
  destruct (String.eqb (String c r) suffix); reflexivity.
Qed.

Lemma replace_ts_ext_unfold (c : ascii) (r : string) :
  replace_ts_ext (String c r)
  = if String.eqb (String c r) ".ts" || String.eqb (String c r) ".tsx"
    then ".js" else String c (replace_ts_ext r).
Proof. reflexivity. Qed.

Lemma replace_ts_ext_nil : replace_ts_ext "" = "".
Proof. reflexivity. Qed.

Ltac step_replace H :=
  first
    [ rewrite replace_ts_ext_nil in H
    | rewrite replace_ts_ext_unfold in H;
      match type of H with
      | context [ if ?b then _ else _ ] =>
          let E := fresh "E" in destruct b eqn:E
      end ];
  try discriminate H.

(** No input is rewritten into exactly [.ts] or exactly [.tsx]: such an
    input would have to be that very string, which is rewritten. *)
Lemma replace_ts_ext_not_ts (s : string) : replace_ts_ext s <> ".ts".
Proof.
  intros H.
  destruct s as [|c0 s]; step_replace H. injection H as -> H.
  destruct s as [|c1 s]; step_replace H. injection H as -> H.
  destruct s as [|c2 s]; step_replace H. injection H as -> H.
  destruct s as [|c3 s]; step_replace H.
  discriminate E.
Qed.

Lemma replace_ts_ext_not_tsx (s : string) : replace_ts_ext s <> ".tsx".
Proof.
  intros H.
  destruct s as [|c0 s]; step_replace H. injection H as -> H.
  destruct s as [|c1 s]; step_replace H. injection H as -> H.
  destruct s as [|c2 s]; step_replace H. injection H as -> H.
  destruct s as [|c3 s]; step_replace H. injection H as -> H.
  destruct s as [|c4 s]; step_replace H.
  rewrite orb_true_r in E. discriminate E.
Qed.

(** The rewriting step does what its comment says: whatever the input,
    the result has no final [.ts] and no final [.tsx]. *)
Lemma replace_ts_ext_untyped (s : string) :
  ends_with ".ts" (replace_ts_ext s) = false
  /\ ends_with ".tsx" (replace_ts_ext s) = false.
Proof.
  induction s as [|c r [IH1 IH2]]; [split; reflexivity |].
  pose proof (replace_ts_ext_not_ts (String c r)) as N1.
  pose proof (replace_ts_ext_not_tsx (String c r)) as N2.
  rewrite replace_ts_ext_unfold in *.
  destruct (String.eqb (String c r) ".ts" || String.eqb (String c r) ".tsx");
    [split; reflexivity |].
  rewrite !ends_with_cons, IH1, IH2, !orb_false_r.
  split; apply String.eqb_neq; assumption.
Qed.

(* ================================================================== *)
(** * Facts about node:path *)
(* ================================================================== *)

Lemma segments_not_nil (p : string) : path.segments p <> [].
Proof.
  destruct p as [|c r]; simpl; [discriminate |].
  destruct (Ascii.eqb c slash); [discriminate |].
  destruct (path.segments r); discriminate.
Qed.

Lemma segments_app_slash (a b : string) :
  path.segments (a ++ String slash b) = (path.segments a ++ path.segments b)%list.
Proof.
  induction a as [|c r IH]; simpl.
  - reflexivity.
  - rewrite IH. destruct (Ascii.eqb c slash); [reflexivity |].
    pose proof (segments_not_nil r) as N.
    destruct (path.segments r); [contradiction | reflexivity].
Qed.

Lemma segments_no_slash (n : string) : no_slash n = true -> path.segments n = [n].
Proof.
  induction n as [|c r IH]; simpl; [reflexivity |].
  intros H. apply andb_true_iff in H as [Hc Hr].
  apply negb_true_iff in Hc. rewrite Hc, (IH Hr). reflexivity.
Qed.

Lemma join_segments_snoc (st : list string) (n : string) :
  path.join_segments (st ++ [n]) = join_prefix st ++ n.
Proof.
  induction st as [|s rest IH]; [reflexivity |].
  destruct rest as [|s' rest'].
  - simpl. rewrite append_assoc. reflexivity.
  - change (path.join_segments ((s :: s' :: rest') ++ [n]))
      with (s ++ String slash (path.join_segments ((s' :: rest') ++ [n]))).
    rewrite IH. unfold join_prefix.
    change (path.join_segments (s :: s' :: rest'))
      with (s ++ String slash (path.join_segments (s' :: rest'))).
    rewrite !append_assoc. reflexivity.
Qed.

(** The accumulator of [collect] is only ever appended to. *)
Lemma collect_acc (l : list string) (acc : string) :
  path.collect l acc = (fst (path.collect l "") ++ acc, snd (path.collect l "")).
Proof.
  revert acc. induction l as [|p rest IH]; intros acc; simpl.
  - reflexivity.
  - destruct (is_empty p); [apply IH |].
    destruct (path.isAbsolute p).
    + simpl. rewrite append_assoc. reflexivity.
    + rewrite (IH (p ++ String slash acc)), (IH (p ++ String slash "")).
      simpl. rewrite !append_assoc. reflexivity.
Qed.

(** What [collect] gathers is empty or ends with a separator. *)
Lemma collect_shape (l : list string) :
  fst (path.collect l "") = ""
  \/ exists q, fst (path.collect l "") = q ++ "/".
Proof.
  induction l as [|p rest IH]; simpl; [now left |].
  destruct (is_empty p); [exact IH |].
  destruct (path.isAbsolute p).
  - right. exists p. reflexivity.
  - right. rewrite collect_acc. simpl.
    destruct IH as [-> | [q ->]].
    + exists p. reflexivity.
    + exists (q ++ String slash p). rewrite !append_assoc. reflexivity.
Qed.

Lemma collect_reaches_cwd (l : list string) (c acc : string) :
  path.isAbsolute c = true -> snd (path.collect (l ++ [c]) acc) = true.
Proof.
  intros Hc. revert acc. induction l as [|p rest IH]; intros acc; simpl.
  - destruct c as [|x r]; [discriminate |]. simpl in *. now rewrite Hc.
  - destruct (is_empty p); [apply IH |].
    destruct (path.isAbsolute p); [reflexivity | apply IH].
Qed.

(** In a process whose working directory is absolute, [path.resolve]
    answers with an absolute path. *)
Lemma resolve_isAbsolute (c : string) (args : list string) :
  path.isAbsolute c = true -> path.isAbsolute (path.resolve c args) = true.
Proof.
  intros Hc. unfold path.resolve.
  pose proof (collect_reaches_cwd (rev args) c "" Hc) as H.
  destruct (path.collect (rev args ++ [c]) "") as [p abs].
  simpl in H. subst abs. reflexivity.
Qed.

Lemma plain_name_facts (n : string) :
  plain_name n = true ->
  no_slash n = true /\ is_empty n = false /\ path.isAbsolute n = false
  /\ forall up st, path.normalize_step up st n = (st ++ [n])%list.
Proof.
  unfold plain_name. intros H.
  repeat (apply andb_true_iff in H as [H ?]).
  repeat match goal with X : negb _ = true |- _ => apply negb_true_iff in X end.
  repeat split; try assumption.
  - destruct n; [discriminate | reflexivity].
  - destruct n as [|x r]; [reflexivity |]. simpl in H.
    apply andb_true_iff in H as [Hx _]. now apply negb_true_iff in Hx.
  - intros up st. unfold path.normalize_step.
    now rewrite H2, H1, H0.
Qed.

(** Resolving a file name against a directory: the answer is the name
    behind a prefix that depends on the directory only, and that prefix
    is empty or ends with a separator. *)
Lemma resolve_plain_name (c d : string) :
  exists pre,
    (pre = "" \/ exists q, pre = q ++ "/")
    /\ forall n, plain_name n = true -> path.resolve c [d; n] = pre ++ n.
Proof.
  pose proof (collect_shape [d; c]) as Shape.
  destruct (path.collect [d; c] "") as [P abs] eqn:EP. simpl in Shape.
  set (st := fun q => fold_left (path.normalize_step (negb abs)) (path.segments q) []).
  assert (Run : forall n, plain_name n = true ->
            path.resolve c [d; n]
            = if abs then String slash (path.normalizeString (P ++ n ++ "/") (negb abs))
              else if is_empty (path.normalizeString (P ++ n ++ "/") (negb abs))
                   then "." else path.normalizeString (P ++ n ++ "/") (negb abs)).
  { intros n Hn. destruct (plain_name_facts n Hn) as (_ & Hne & Hna & _).
    unfold path.resolve.
    change (rev [d; n] ++ [c])%list with [n; d; c].
    change (path.collect [n; d; c] "")
      with (if is_empty n then path.collect [d; c] ""
            else if path.isAbsolute n then (n ++ String slash "", true)
                 else path.collect [d; c] (n ++ String slash "")).
    rewrite Hne, Hna, collect_acc, EP. reflexivity. }
  destruct Shape as [-> | [q ->]].
  - (* nothing gathered: the directory and the working directory are empty *)
    assert (abs = false) as ->.
    { assert (G : forall l, fst (path.collect l "") = "" -> snd (path.collect l "") = false).
      { induction l as [|p rest IHl]; simpl; [reflexivity |].
        destruct (is_empty p) eqn:Ep; [exact IHl |].
        destruct (path.isAbsolute p).
        - simpl. destruct p; discriminate.
        - rewrite collect_acc. simpl. intros E.
          destruct (fst (path.collect rest "")); destruct p; discriminate. }
      pose proof (G [d; c]) as G'. rewrite EP in G'. now apply G'. }
    exists "". split; [now left |].
    intros n Hn. rewrite (Run n Hn).
    destruct (plain_name_facts n Hn) as (Hs & Hne & _ & Hstep).
    unfold path.normalizeString. simpl append.
    rewrite segments_app_slash, (segments_no_slash n Hs). simpl.
    rewrite Hstep. simpl. now rewrite Hne.
  - exists ((if abs then "/" else "") ++ join_prefix (st q)).
    split.
    + unfold join_prefix. destruct (st q) as [|s rest].
      * destruct abs; [right; now exists "" | now left].
      * right. exists ((if abs then "/" else "") ++ path.join_segments (s :: rest)).
        now rewrite append_assoc.
    + intros n Hn. rewrite (Run n Hn).
      destruct (plain_name_facts n Hn) as (Hs & Hne & _ & Hstep).
      assert (N : path.normalizeString ((q ++ "/") ++ n ++ "/") (negb abs)
                  = join_prefix (st q) ++ n).
      { unfold path.normalizeString.
        rewrite append_assoc. simpl append.
        rewrite segments_app_slash, segments_app_slash, (segments_no_slash n Hs).
        rewrite !fold_left_app. simpl. rewrite Hstep.
        apply join_segments_snoc. }
      rewrite N. destruct abs; simpl; [reflexivity |].
      replace (is_empty (join_prefix (st q) ++ n)) with false; [reflexivity |].
      destruct (join_prefix (st q)); simpl; [now rewrite Hne | reflexivity].
Qed.

(** Two different file names resolve to two different paths. *)
Lemma resolve_plain_name_inj (c d n m : string) :
  plain_name n = true -> plain_name m = true -> n <> m ->
  path.resolve c [d; n] <> path.resolve c [d; m].
Proof.
  intros Hn Hm Hneq. destruct (resolve_plain_name c d) as (pre & _ & R).
  rewrite (R n Hn), (R m Hm). intros E. apply Hneq.
  exact (append_cancel_l _ _ _ E).
Qed.

Lemma last_component_behind (pre n : string) :
  (pre = "" \/ exists q, pre = q ++ "/") -> plain_name n = true ->
  path.last_component (pre ++ n) = n.
Proof.
  intros Hpre Hn. destruct (plain_name_facts n Hn) as (Hs & Hne & _ & _).
  unfold path.last_component.
  destruct Hpre as [-> | [q ->]].
  - simpl append. rewrite (segments_no_slash n Hs). simpl. now rewrite Hne.
  - rewrite append_assoc. simpl append.
    rewrite segments_app_slash, (segments_no_slash n Hs), rev_app_distr.
    simpl. now rewrite Hne.
Qed.

(** The last component of a resolved file name is that name, and the
    extension of the path is the extension of the name. *)
Lemma resolve_last_component (c d n : string) :
  plain_name n = true -> path.last_component (path.resolve c [d; n]) = n.
Proof.
  intros Hn. destruct (resolve_plain_name c d) as (pre & Hpre & R).
  rewrite (R n Hn). now apply last_component_behind.
Qed.

Lemma resolve_extname (c d n : string) :
  plain_name n = true ->
  path.extname (path.resolve c [d; n]) = path.extname n.
Proof.
  intros Hn. unfold path.extname.
  rewrite (resolve_last_component c d n Hn).
  replace (path.last_component n) with n; [reflexivity |].
  symmetry. apply (last_component_behind "" n); [now left | exact Hn].
Qed.

(* ================================================================== *)
(** * Facts about objects *)
(* ================================================================== *)

Lemma own_app (k : string) (a b : list (string * jsval)) :
  own k (a ++ b) = match own k b with
                   | Some v => Some v
                   | None => own k a
                   end.
Proof.
  induction a as [|[k' v] rest IH]; simpl.
  - destruct (own k b); reflexivity.
  - rewrite IH. destruct (own k b); reflexivity.
Qed.

Lemma own_overwrite_same (k : string) (v : jsval) (props : list (string * jsval)) :
  own k (overwrite k v props) = match own k props with
                                | Some _ => Some v
                                | None => None
                                end.
Proof.
  induction props as [|[k' v'] rest IH]; simpl; [reflexivity |].
  rewrite IH. destruct (own k rest); [reflexivity |].
  destruct (String.eqb k' k); reflexivity.
Qed.

Lemma own_overwrite_other (k k' : string) (v : jsval) (props : list (string * jsval)) :
  k <> k' -> own k' (overwrite k v props) = own k' props.
Proof.
  intros Hk. induction props as [|[k0 v0] rest IH]; simpl; [reflexivity |].
  rewrite IH. destruct (own k' rest); [reflexivity |].
  destruct (String.eqb k0 k') eqn:E; [| reflexivity].
  apply String.eqb_eq in E. subst k0.
  apply String.eqb_neq in Hk. rewrite String.eqb_sym in Hk. now rewrite Hk.
Qed.

Lemma own_set_prop_same (k : string) (v : jsval) (props : list (string * jsval)) :
  own k (set_prop k v props) = Some v.
Proof.
  unfold set_prop, has_key. destruct (own k props) eqn:E.
  - rewrite own_overwrite_same, E. reflexivity.
  - rewrite own_app. simpl. now rewrite String.eqb_refl.
Qed.

Lemma own_set_prop_other (k k' : string) (v : jsval) (props : list (string * jsval)) :
  k <> k' -> own k' (set_prop k v props) = own k' props.
Proof.
  intros Hk. unfold set_prop. destruct (has_key k props).
  - now apply own_overwrite_other.
  - rewrite own_app. simpl. apply String.eqb_neq in Hk. now rewrite Hk.
Qed.

(** A run of assignments: the last one made to [k] decides, and without
    any the object keeps what it had. *)
Lemma own_assignments (k : string) (l o : list (string * jsval)) :
  own k (fold_left (fun o kv => set_prop (fst kv) (snd kv) o) l o)
  = match own k l with
    | Some v => Some v
    | None => own k o
    end.
Proof.
  revert o. induction l as [|[k' v] rest IH]; intros o; simpl; [reflexivity |].
  rewrite IH. destruct (own k rest); [reflexivity |].
  destruct (String.eqb k' k) eqn:E.
  - apply String.eqb_eq in E. subst k'. apply own_set_prop_same.
  - apply String.eqb_neq in E. now apply own_set_prop_other.
Qed.

(** Reading a key of [{ ...a, ...b }]. *)
Lemma field_spread (k : string) (a b : jsval) :
  field k (spread a b)
  = match supplied k b with
    | Some v => v
    | None => match supplied k a with
              | Some v => v
              | None => VUndef
              end
    end.
Proof.
  unfold spread, field, get_prop, supplied.
  rewrite own_assignments, own_app. simpl.
  destruct (own k (own_props b)); [reflexivity |].
  destruct (own k (own_props a)); reflexivity.
Qed.

Lemma field_assign_same (k : string) (v : jsval) (props : list (string * jsval)) :
  field k (assign k v (VObj props)) = v.
Proof. simpl. unfold get_prop. now rewrite own_set_prop_same. Qed.

Lemma field_assign_other (k k' : string) (v config : jsval) :
  k <> k' -> field k' (assign k v config) = field k' config.
Proof.
  intros Hk. destruct config; try reflexivity.
  simpl. unfold get_prop. now rewrite own_set_prop_other.
Qed.

(* ================================================================== *)
(** * Facts about zod *)
(* ================================================================== *)

Lemma conclude_valid (data : jsval) (issues : list (list string)) (d : jsval) :
  conclude data issues = Valid d -> issues = [] /\ d = data.
Proof. destruct issues; simpl; [now intros [= ->] | discriminate]. Qed.

Section Shape.

Context {S : Type} (parse_one : S -> jsval -> parsed).
Variable props : list (string * jsval).

(** Keys the shape does not list are not in the output. *)
Lemma parse_fields_unlisted (sh : list (string * S)) (k : string) :
  ~ In k (map fst sh) -> own k (fst (parse_fields parse_one props sh)) = None.
Proof.
  induction sh as [|[k' s'] rest IH]; simpl; [reflexivity |].
  intros Hk.
  assert (k' <> k) as Hne by tauto.
  assert (~ In k (map fst rest)) as Hrest by tauto.
  specialize (IH Hrest).
  destruct (parse_fields parse_one props rest) as [out issues]. simpl in IH.
  apply String.eqb_neq in Hne.
  destruct (parse_one s' (get_prop k' props)) as [[] |]; simpl;
    try (rewrite IH, Hne; reflexivity); try exact IH.
  destruct (has_key k' props); simpl; [rewrite IH, Hne; reflexivity | exact IH].
Qed.

(** When no key raised an issue, every key of the shape was accepted,
    and the output holds what its schema made of the input's value. *)
Lemma parse_fields_listed (sh : list (string * S)) (k : string) (s : S) :
  NoDup (map fst sh) -> In (k, s) sh ->
  snd (parse_fields parse_one props sh) = [] ->
  parse_one s (get_prop k props)
  = Valid (get_prop k (fst (parse_fields parse_one props sh))).
Proof.
  induction sh as [|[k' s'] rest IH]; simpl; [contradiction |].
  intros Hnd Hin Hissues. inversion Hnd as [| ? ? Hfresh Hnd']; subst.
  pose proof (parse_fields_unlisted rest k') as Hun.
  destruct (parse_fields parse_one props rest) as [out issues] eqn:Erest.
  simpl in IH, Hun.
  destruct Hin as [[= -> ->] | Hin].
  - (* the head of the shape *)
    specialize (Hun Hfresh).
    destruct (parse_one s (get_prop k props)) as [d | issue more] eqn:Ep.
    + unfold get_prop.
      destruct d; simpl; rewrite ?Hun, ?String.eqb_refl; try reflexivity.
      destruct (has_key k props); simpl; rewrite ?Hun, ?String.eqb_refl; reflexivity.
    + simpl in Hissues. discriminate.
  - (* a later key *)
    assert (k' <> k) as Hne.
    { intros ->. apply Hfresh. now apply (in_map fst) in Hin. }
    apply String.eqb_neq in Hne.
    assert (Skip : forall v, own k ((k', v) :: out) = own k out).
    { intros v. simpl. destruct (own k out); [reflexivity | now rewrite Hne]. }
    destruct (parse_one s' (get_prop k' props)) as [d | issue more].
    + assert (issues = []) as ->.
      { destruct d; exact Hissues. }
      rewrite (IH Hnd' Hin eq_refl). unfold get_prop.
      destruct d; simpl fst; rewrite ?Skip; try reflexivity.
      destruct (has_key k' props); rewrite ?Skip; reflexivity.
    + simpl in Hissues. discriminate.
Qed.

End Shape.

(** An object schema accepts objects only, and what it returns holds for
    each key of the shape what the key's schema made of the input. *)
Lemma safeParse_object (shape : list (string * schema)) (v c : jsval) :
  NoDup (map fst shape) ->
  safeParse (ZObject shape) v = Valid c ->
  (exists out, c = VObj out)
  /\ exists props, v = VObj props
       /\ forall k s, In (k, s) shape ->
            safeParse s (get_prop k props) = Valid (field k c).
Proof.
  intros Hnd H. destruct v; try discriminate.
  simpl in H.
  destruct (parse_fields safeParse props shape) as [out issues] eqn:E.
  apply conclude_valid in H as [-> ->].
  split; [now exists out |].
  exists props. split; [reflexivity |].
  intros k s Hin.
  pose proof (parse_fields_listed safeParse props shape k s Hnd Hin) as L.
  rewrite E in L. exact (L eq_refl).
Qed.

Lemma safeParse_atom (s : schema) (v r : jsval) :
  atom s = true -> safeParse s v = Valid r -> r = v.
Proof.
  intros Hs H.
  destruct s; try discriminate Hs; destruct v; simpl in H;
    try discriminate H; try congruence.
  destruct (existsb _ options); [congruence | discriminate H].
Qed.

Lemma parse_items_verbatim (parse_one : jsval -> parsed) :
  (forall v r, parse_one v = Valid r -> r = v) ->
  forall items i vs, parse_items parse_one i items = (vs, []) -> vs = items.
Proof.
  intros Hid. induction items as [|v rest IH]; intros i vs; simpl.
  - now intros [= <-].
  - destruct (parse_items parse_one (S i) rest) as [vs' issues'] eqn:E.
    destruct (parse_one v) as [d | issue more] eqn:Ev.
    + intros [= <- ->]. rewrite (Hid v d Ev), (IH (S i) vs' E). reflexivity.
    + intros H. inversion H.
Qed.

Lemma safeParse_verbatim (s : schema) (v r : jsval) :
  verbatim s = true -> v <> VUndef -> safeParse s v = Valid r -> r = v.
Proof.
  intros Hs Hv H.
  assert (Base : forall b, verbatim (ZOptional b) = true ->
                   safeParse b v = Valid r -> r = v).
  { intros b Hb Hp.
    destruct b as [| | | e | | | | |]; try discriminate Hb;
      try (eapply safeParse_atom; [| exact Hp]; reflexivity).
    destruct v; try discriminate Hp. simpl in Hp, Hb.
    destruct (parse_items (safeParse e) 0 items) as [vs issues] eqn:E.
    apply conclude_valid in Hp as [-> ->].
    f_equal. apply (parse_items_verbatim (safeParse e)) in E; [exact E |].
    intros x y. now apply safeParse_atom. }
  destruct s as [| | | | |inner|inner value| |]; try discriminate Hs.
  - apply (Base inner Hs). destruct v; try exact H. contradiction.
  - destruct inner as [| | | | |inner'| | |]; try discriminate Hs.
    apply (Base inner' Hs). destruct v; try exact H. contradiction.
Qed.

(** An optional string that has a string default parses to a string. *)
Lemma safeParse_string_default (d : string) (v r : jsval) :
  safeParse (ZDefault (ZOptional ZString) (VStr d)) v = Valid r ->
  exists s, r = VStr s.
Proof.
  destruct v; simpl; intros [= <-]; eexists; reflexivity.
Qed.

(* ================================================================== *)
(** * Facts about the schema and the steps of getConfig *)
(* ================================================================== *)

Lemma configShape_keys : NoDup (map fst configShape).
Proof.
  simpl. repeat (constructor; [simpl; intuition discriminate |]). constructor.
Qed.

(** Every option left out of the input gets its declared default. *)
Lemma configShape_defaults (k : string) (s : schema) :
  In (k, s) configShape -> safeParse s VUndef = Valid (declared_default s).
Proof.
  intros H. simpl in H.
  repeat (destruct H as [[= <- <-] | H]; [reflexivity |]). contradiction.
Qed.

(** What [configSchema.parse] returns is an object whose options are
    the input's, each read through its schema. *)
Lemma parse_configSchema (v c : jsval) :
  parse configSchema v = Ok c ->
  (exists out, c = VObj out)
  /\ exists props, v = VObj props
       /\ forall k s, In (k, s) configShape ->
            safeParse s (get_prop k props) = Valid (field k c).
Proof.
  unfold parse. intros H.
  destruct (safeParse configSchema v) as [d |] eqn:E; [| discriminate].
  injection H as ->.
  now apply safeParse_object; [apply configShape_keys |].
Qed.

Lemma in_shape_routesDirectory :
  In ("routesDirectory", ZDefault (ZOptional ZString) (VStr "./src/routes"))
     configShape.
Proof. simpl. tauto. Qed.

Lemma in_shape_generatedRouteTree :
  In ("generatedRouteTree",
      ZDefault (ZOptional ZString) (VStr "./src/routeTree.gen.ts")) configShape.
Proof. simpl. tauto. Qed.

Lemma in_shape_routeFileIgnorePrefix :
  In ("routeFileIgnorePrefix", ZDefault (ZOptional ZString) (VStr "-")) configShape.
Proof. simpl. tauto. Qed.

Lemma parsed_has_paths (v c : jsval) :
  parse configSchema v = Ok c -> exists rd gt, has_paths c rd gt.
Proof.
  intros H. destruct (parse_configSchema v c H) as (Hobj & props & _ & F).
  destruct (safeParse_string_default _ _ _ (F _ _ in_shape_routesDirectory))
    as [rd Hrd].
  destruct (safeParse_string_default _ _ _ (F _ _ in_shape_generatedRouteTree))
    as [gt Hgt].
  exists rd, gt. repeat split; assumption.
Qed.

Lemma parsed_prefix_string (v c : jsval) :
  parse configSchema v = Ok c ->
  exists s, field "routeFileIgnorePrefix" c = VStr s.
Proof.
  intros H. destruct (parse_configSchema v c H) as (_ & props & _ & F).
  exact (safeParse_string_default _ _ _ (F _ _ in_shape_routeFileIgnorePrefix)).
Qed.

(** The merged configuration is an output of [configSchema.parse]. *)
Lemma mergedConfig_parsed (w : World) (inlineConfig : jsval) (d : string) (m : jsval) :
  mergedConfig w inlineConfig d = Ok m ->
  exists v, parse configSchema v = Ok m.
Proof.
  unfold mergedConfig.
  destruct (resolveConfigPath w d) as [p |]; simpl.
  - destruct (readConfig (path.extname p)) as [l |]; simpl.
    + destruct (l w p) as [file |]; simpl; [| discriminate].
      destruct (parse configSchema (spread file inlineConfig)) eqn:E; simpl;
        [| discriminate].
      intros [= <-]. eauto.
    + eauto.
  - eauto.
Qed.

Lemma rewriteExtension_run (config : jsval) (rd gt : string) :
  has_paths config rd gt ->
  rewriteExtension config = Ok (rewritten config gt)
  /\ has_paths (rewritten config gt) rd (rewritten_path config gt)
  /\ forall k, k <> "generatedRouteTree" ->
       field k (rewritten config gt) = field k config.
Proof.
  intros ([props ->] & Hrd & Hgt).
  unfold rewriteExtension, rewritten, rewritten_path.
  destruct (truthy (field "disableTypes" (VObj props))).
  - rewrite Hgt. cbn [bind as_string]. split; [reflexivity |]. split.
    + split; [eexists; reflexivity |]. split.
      * rewrite field_assign_other; [exact Hrd | discriminate].
      * apply field_assign_same.
    + intros k Hk. apply field_assign_other. congruence.
  - split; [reflexivity |]. split; [| reflexivity].
    split; [eexists; reflexivity | now split].
Qed.

Lemma resolvePaths_run (w : World) (d : string) (config : jsval) (rd gt : string) :
  has_paths config rd gt ->
  resolvePaths w d config = Ok (placed w d config rd gt)
  /\ forall k, k <> "generatedRouteTree" -> k <> "routesDirectory" ->
       field k (placed w d config rd gt) = field k config.
Proof.
  intros ([props ->] & Hrd & Hgt).
  unfold resolvePaths, placed, anchor.
  destruct (is_empty d); simpl negb; cbv iota; [split; reflexivity |].
  assert (Hgt' : forall v,
             field "generatedRouteTree" (assign "routesDirectory" v (VObj props))
             = VStr gt).
  { intros v. rewrite field_assign_other; [exact Hgt | discriminate]. }
  split.
  - destruct (path.isAbsolute d); rewrite Hrd; cbn [bind as_string];
      rewrite Hgt'; reflexivity.
  - intros k H1 H2. rewrite !field_assign_other; congruence.
Qed.

Lemma placed_paths (w : World) (d : string) (config : jsval) (rd gt : string) :
  has_paths config rd gt -> is_empty d = false ->
  field "routesDirectory" (placed w d config rd gt)
  = VStr (path.resolve (cwd w) (anchor w d ++ [rd]))
  /\ field "generatedRouteTree" (placed w d config rd gt)
     = VStr (path.resolve (cwd w) (anchor w d ++ [gt])).
Proof.
  intros ([props ->] & _ & _) Hd. unfold placed. rewrite Hd. split.
  - rewrite field_assign_other; [| discriminate]. apply field_assign_same.
  - apply field_assign_same.
Qed.

(** [validateConfig] looks at four options only. *)
Lemma validateConfig_reads (c c' : jsval) :
  field "experimental" c' = field "experimental" c ->
  field "indexToken" c' = field "indexToken" c ->
  field "routeToken" c' = field "routeToken" c ->
  field "routeFileIgnorePrefix" c' = field "routeFileIgnorePrefix" c ->
  validateConfig c' = match validateConfig c with
                      | Ok _ => Ok c'
                      | Throw e => Throw e
                      end.
Proof.
  intros H1 H2 H3 H4.
  unfold validateConfig, experimental_enableCodeSplitting.
  rewrite H1, H2, H3, H4.
  destruct (negb _); [reflexivity |].
  destruct (strict_eq _ _); [reflexivity |].
  destruct (truthy _); [| reflexivity].
  destruct (as_string _); simpl; [| reflexivity].
  destruct (String.eqb _ _); reflexivity.
Qed.

(** The whole of [getConfig] once the merged configuration is known:
    the checks run on it, and the configuration handed back is the
    merged one with its two paths rewritten. *)
Lemma getConfig_run (w : World) (inlineConfig : jsval) (dir : option string)
      (m : jsval) :
  mergedConfig w (inline_or_empty inlineConfig) (directory_or_cwd w dir) = Ok m ->
  exists rd gt,
    has_paths m rd gt
    /\ rewriteExtension m = Ok (rewritten m gt)
    /\ getConfig w inlineConfig dir
       = match validateConfig m with
         | Ok _ => Ok (placed w (directory_or_cwd w dir) (rewritten m gt)
                             rd (rewritten_path m gt))
         | Throw e => Throw e
         end
    /\ forall k, k <> "generatedRouteTree" -> k <> "routesDirectory" ->
         field k (placed w (directory_or_cwd w dir) (rewritten m gt)
                         rd (rewritten_path m gt)) = field k m.
Proof.
  intros Hm. destruct (mergedConfig_parsed _ _ _ _ Hm) as [v Hv].
  destruct (parsed_has_paths v m Hv) as (rd & gt & Hp).
  exists rd, gt.
  destruct (rewriteExtension_run m rd gt Hp) as (R1 & R2 & R3).
  destruct (resolvePaths_run w (directory_or_cwd w dir) _ _ _ R2) as (P1 & P2).
  assert (Same : forall k, k <> "generatedRouteTree" -> k <> "routesDirectory" ->
            field k (placed w (directory_or_cwd w dir) (rewritten m gt)
                            rd (rewritten_path m gt)) = field k m).
  { intros k H1 H2. rewrite P2, R3; auto. }
  split; [exact Hp |]. split; [exact R1 |]. split; [| exact Same].
  unfold getConfig. cbv zeta. rewrite Hm. cbn [bind]. rewrite R1. cbn [bind].
  rewrite P1. cbn [bind].
  apply validateConfig_reads; apply Same; discriminate.
Qed.

(** With a file found and read, the merged configuration is the parse
    of the file's object with the inline one spread over it. *)
Lemma mergedConfig_loaded (w : World) (inlineConfig : jsval) (d p : string)
      (l : loader) (file : jsval) :
  resolveConfigPath w d = Some p ->
  readConfig (path.extname p) = Some l ->
  l w p = Ok file ->
  mergedConfig w inlineConfig d = parse configSchema (spread file inlineConfig).
Proof.
  intros Hp Hl Hf. unfold mergedConfig. cbv zeta.
  rewrite Hp, Hl. cbn [bind]. rewrite Hf. cbn [bind].
  destruct (parse configSchema (spread file inlineConfig)); reflexivity.
Qed.

(** Without a file, it is the parse of the inline configuration. *)
Lemma mergedConfig_alone (w : World) (inlineConfig : jsval) (d : string) :
  resolveConfigPath w d = None ->
  mergedConfig w inlineConfig d = parse configSchema inlineConfig.
Proof.
  intros Hp. unfold mergedConfig. cbv zeta. rewrite Hp. reflexivity.
Qed.

(** Each option of a parsed spread is its schema's reading of the value
    the spread holds for the option's key. *)
Lemma parse_spread_field (file inlineConfig c : jsval) (k : string) (s : schema) :
  parse configSchema (spread file inlineConfig) = Ok c ->
  In (k, s) configShape ->
  safeParse s (field k (spread file inlineConfig)) = Valid (field k c).
Proof.
  intros Hc Hin.
  destruct (parse_configSchema _ _ Hc) as (_ & props & Hprops & F).
  rewrite Hprops. simpl field. now apply F.
Qed.

(** A configuration file that was found always has a reader: the one
    for JSON when it is [tsr.config.json], the one for modules when it is
    [tsr.config.js]. *)
Lemma resolveConfigPath_reader (w : World) (d p : string) :
  resolveConfigPath w d = Some p ->
  (p = path.resolve (cwd w) [d; "tsr.config.json"]
   /\ readConfig (path.extname p) = Some readConfig_json)
  \/ (p = path.resolve (cwd w) [d; "tsr.config.js"]
      /\ readConfig (path.extname p) = Some readConfig_js).
Proof.
  unfold resolveConfigPath. cbv zeta.
  destruct (existsSync w (path.resolve (cwd w) [d; "tsr.config.json"])).
  - intros [= <-]. left. split; [reflexivity |].
    now rewrite resolve_extname.
  - destruct (existsSync w (path.resolve (cwd w) [d; "tsr.config.js"]));
      [| discriminate].
    intros [= <-]. right. split; [reflexivity |].
    now rewrite resolve_extname.
Qed.

Lemma resolves_selected (k : string) (s : schema) (v r : jsval) :
  In (k, s) configShape -> safeParse s v = Valid r -> resolves s v r.
Proof.
  intros Hin F. split; [exact F |]. split.
  - intros Hs Hv. exact (safeParse_verbatim s v r Hs Hv F).
  - intros ->. rewrite (configShape_defaults k s Hin) in F.
    now injection F.
Qed.

(** Option by option, the merged configuration follows the precedence
    inline > file > schema default: the value selected is read through
    the option's schema as a whole. *)
Lemma merged_option_precedence (w : World) (inlineConfig : jsval) (d p : string)
        (l : loader) (file c : jsval) (k : string) (s : schema) :
  resolveConfigPath w d = Some p ->
  readConfig (path.extname p) = Some l ->
  l w p = Ok file ->
  mergedConfig w inlineConfig d = Ok c ->
  In (k, s) configShape ->
  match supplied k inlineConfig with
  | Some v => resolves s v (field k c)
  | None =>
      match supplied k file with
      | Some v => resolves s v (field k c)
      | None => field k c = declared_default s
      end
  end.
Proof.
  intros Hp Hl Hf Hc Hin.
  rewrite (mergedConfig_loaded w inlineConfig d p l file Hp Hl Hf) in Hc.
  pose proof (parse_spread_field file inlineConfig c k s Hc Hin) as F.
  rewrite field_spread in F.
  destruct (supplied k inlineConfig) as [v |].
  - exact (resolves_selected k s v _ Hin F).
  - destruct (supplied k file) as [v |].
    + exact (resolves_selected k s v _ Hin F).
    + rewrite (configShape_defaults k s Hin) in F.
      now injection F.
Qed.

(** C10: an inline key whose value is [undefined] still overrides: the
    file's value for that option is dropped and the option gets its
    schema default ([undefined] when it declares none). *)
Theorem C10_inline_undefined_overrides (w : World) (inlineConfig : jsval)
        (d p : string) (l : loader) (file c : jsval) (k : string) (s : schema) :
  resolveConfigPath w d = Some p ->
  readConfig (path.extname p) = Some l ->
  l w p = Ok file ->
  mergedConfig w inlineConfig d = Ok c ->
  In (k, s) configShape ->
  supplied k inlineConfig = Some VUndef ->
  field k c = declared_default s.
Proof.
  intros Hp Hl Hf Hc Hin Hk.
  rewrite (mergedConfig_loaded w inlineConfig d p l file Hp Hl Hf) in Hc.
  pose proof (parse_spread_field file inlineConfig c k s Hc Hin) as F.
  rewrite field_spread, Hk in F.
  rewrite (configShape_defaults k s Hin) in F.
  now injection F.
Qed.

(** C2: [resolveConfigPath] answers with the path of [tsr.config.json]
    when that file exists, whether or not [tsr.config.js] exists too,
    otherwise with the path of [tsr.config.js] when that one exists,
    otherwise with [undefined]; both paths are absolute and they differ,
    so with both files present the answer is never the script module. *)
Theorem C2_json_before_js (w : World) (d : string) :
  path.isAbsolute (cwd w) = true ->
  resolveConfigPath w d
  = (if existsSync w (path.resolve (cwd w) [d; "tsr.config.json"])
     then Some (path.resolve (cwd w) [d; "tsr.config.json"])
     else if existsSync w (path.resolve (cwd w) [d; "tsr.config.js"])
          then Some (path.resolve (cwd w) [d; "tsr.config.js"])
          else None)
  /\ path.isAbsolute (path.resolve (cwd w) [d; "tsr.config.json"]) = true
  /\ path.isAbsolute (path.resolve (cwd w) [d; "tsr.config.js"]) = true
  /\ path.last_component (path.resolve (cwd w) [d; "tsr.config.json"])
     = "tsr.config.json"
  /\ path.last_component (path.resolve (cwd w) [d; "tsr.config.js"])
     = "tsr.config.js"
  /\ (existsSync w (path.resolve (cwd w) [d; "tsr.config.json"]) = true ->
      resolveConfigPath w d = Some (path.resolve (cwd w) [d; "tsr.config.json"])
      /\ resolveConfigPath w d <> Some (path.resolve (cwd w) [d; "tsr.config.js"])).
Proof.
  intros Hcwd.
  split; [reflexivity |].
  split; [now apply resolve_isAbsolute |].
  split; [now apply resolve_isAbsolute |].
  split; [now apply resolve_last_component |].
  split; [now apply resolve_last_component |].
  intros Hjson. unfold resolveConfigPath. cbv zeta. rewrite Hjson.
  split; [reflexivity |].
  intros [= E]. revert E.
  apply resolve_plain_name_inj; [reflexivity | reflexivity | discriminate].
Qed.

(** C3: at a generated-tree path that ends with a separator the rule
    does not hold: with [disableTypes] set, the configuration returned
    for [./routeTree.gen.ts/] names [/proj/routeTree.gen.ts].  The pattern
    looks at the end of the declared string, and the separator that
    hides the extension from it is dropped by [path.resolve] later. *)
Theorem C3_trailing_separator_keeps_ts :
  exists c,
    getConfig (bare_world "/proj")
      (VObj [ ("disableTypes", VBool true);
              ("generatedRouteTree", VStr "./routeTree.gen.ts/") ])
      (Some "/proj") = Ok c
    /\ field "disableTypes" c = VBool true
    /\ field "generatedRouteTree" c = VStr "/proj/routeTree.gen.ts"
    /\ path.extname "/proj/routeTree.gen.ts" = ".ts".
Proof.
  eexists. split; [vm_compute; reflexivity |].
  repeat split; reflexivity.
Qed.

(** The two paths of a returned configuration when the directory in
    force is not the empty string. *)
Lemma getConfig_paths (w : World) (inlineConfig : jsval) (dir : option string)
      (m c : jsval) :
  path.isAbsolute (cwd w) = true ->
  is_empty (directory_or_cwd w dir) = false ->
  mergedConfig w (inline_or_empty inlineConfig) (directory_or_cwd w dir) = Ok m ->
  getConfig w inlineConfig dir = Ok c ->
  exists rd gt,
    has_paths m rd gt
    /\ field "routesDirectory" c
       = VStr (path.resolve (cwd w) (anchor w (directory_or_cwd w dir) ++ [rd]))
    /\ field "generatedRouteTree" c
       = VStr (path.resolve (cwd w)
                 (anchor w (directory_or_cwd w dir) ++ [rewritten_path m gt]))
    /\ path.isAbsolute
         (path.resolve (cwd w) (anchor w (directory_or_cwd w dir) ++ [rd])) = true
    /\ path.isAbsolute
         (path.resolve (cwd w)
            (anchor w (directory_or_cwd w dir) ++ [rewritten_path m gt])) = true.
Proof.
  intros Hcwd Hd Hm Hc.
  destruct (getConfig_run w inlineConfig dir m Hm)
    as (rd & gt & Hp & R & Run & _).
  exists rd, gt. split; [exact Hp |].
  rewrite Run in Hc. destruct (validateConfig m); [| discriminate].
  injection Hc as <-.
  destruct (rewriteExtension_run m rd gt Hp) as (_ & Hp' & _).
  destruct (placed_paths w (directory_or_cwd w dir) _ _ _ Hp' Hd) as [P1 P2].
  split; [exact P1 |]. split; [exact P2 |].
  split; now apply resolve_isAbsolute.
Qed.

(** C4, as the code has it: when no directory is passed the working
    directory takes its place, so the call behaves as if the working
    directory had been passed, and the two paths of the returned
    configuration are the declared ones resolved against the working
    directory, hence absolute. *)
Theorem C4_no_directory_means_cwd (w : World) (inlineConfig m : jsval) :
  path.isAbsolute (cwd w) = true ->
  mergedConfig w (inline_or_empty inlineConfig) (cwd w) = Ok m ->
  getConfig w inlineConfig None = getConfig w inlineConfig (Some (cwd w))
  /\ forall c, getConfig w inlineConfig None = Ok c ->
       exists rd gt,
         has_paths m rd gt
         /\ field "routesDirectory" c = VStr (path.resolve (cwd w) [cwd w; rd])
         /\ field "generatedRouteTree" c
            = VStr (path.resolve (cwd w) [cwd w; rewritten_path m gt])
         /\ path.isAbsolute (path.resolve (cwd w) [cwd w; rd]) = true
         /\ path.isAbsolute
              (path.resolve (cwd w) [cwd w; rewritten_path m gt]) = true.
Proof.
  intros Hcwd Hm. split; [reflexivity |].
  intros c Hc.
  assert (Hd : is_empty (directory_or_cwd w None) = false).
  { simpl. destruct (cwd w); [discriminate | reflexivity]. }
  destruct (getConfig_paths w inlineConfig None m c Hcwd Hd Hm Hc)
    as (rd & gt & Hp & H1 & H2 & H3 & H4).
  unfold anchor in *. simpl directory_or_cwd in *. rewrite Hcwd in *.
  exists rd, gt. repeat split; try assumption; apply Hp.
Qed.

(** C5, as the code has it: with a directory passed that is not the
    empty string, the two paths of the returned configuration are the
    declared ones resolved against the directory when it is absolute,
    and against the working directory followed by the directory when it
    is relative; both are absolute. *)
Theorem C5_directory_anchors_paths (w : World) (inlineConfig : jsval)
        (d : string) (m c : jsval) :
  path.isAbsolute (cwd w) = true ->
  d <> "" ->
  mergedConfig w (inline_or_empty inlineConfig) d = Ok m ->
  getConfig w inlineConfig (Some d) = Ok c ->
  exists rd gt,
    has_paths m rd gt
    /\ field "routesDirectory" c
       = VStr (if path.isAbsolute d
               then path.resolve (cwd w) [d; rd]
               else path.resolve (cwd w) [cwd w; d; rd])
    /\ field "generatedRouteTree" c
       = VStr (if path.isAbsolute d
               then path.resolve (cwd w) [d; rewritten_path m gt]
               else path.resolve (cwd w) [cwd w; d; rewritten_path m gt])
    /\ exists abs_rd abs_gt,
         field "routesDirectory" c = VStr abs_rd
         /\ field "generatedRouteTree" c = VStr abs_gt
         /\ path.isAbsolute abs_rd = true
         /\ path.isAbsolute abs_gt = true.
Proof.
  intros Hcwd Hne Hm Hc.
  assert (Hd : is_empty (directory_or_cwd w (Some d)) = false).
  { simpl. destruct d; [contradiction | reflexivity]. }
  destruct (getConfig_paths w inlineConfig (Some d) m c Hcwd Hd Hm Hc)
    as (rd & gt & Hp & H1 & H2 & H3 & H4).
  unfold anchor in *. simpl directory_or_cwd in *.
  exists rd, gt. split; [exact Hp |].
  destruct (path.isAbsolute d); simpl app in *;
    (split; [exact H1 |]; split; [exact H2 |]);
    eexists; eexists; (split; [exact H1 |]); (split; [exact H2 |]);
    split; assumption.
Qed.

(** C6: a merged configuration in which
    [experimental.enableCodeSplitting] is defined, [false] included,
    makes [getConfig] fail with the deprecated-flag error; the check
    comes first in [validateConfig], so it decides whatever the other
    options hold. *)
Theorem C6_deprecated_flag_first (w : World) (inlineConfig : jsval)
        (dir : option string) (m : jsval) :
  mergedConfig w (inline_or_empty inlineConfig) (directory_or_cwd w dir) = Ok m ->
  experimental_enableCodeSplitting m <> VUndef ->
  getConfig w inlineConfig dir = Throw (Error MsgDeprecatedFlag)
  /\ forall config,
       experimental_enableCodeSplitting config
       = experimental_enableCodeSplitting m ->
       validateConfig config = Throw (Error MsgDeprecatedFlag).
Proof.
  intros Hm Hflag.
  assert (V : forall config,
             experimental_enableCodeSplitting config
             = experimental_enableCodeSplitting m ->
             validateConfig config = Throw (Error MsgDeprecatedFlag)).
  { intros config E. unfold validateConfig. rewrite E.
    destruct (experimental_enableCodeSplitting m); try reflexivity.
    contradiction. }
  split; [| exact V].
  destruct (getConfig_run w inlineConfig dir m Hm)
    as (rd & gt & _ & _ & Run & _).
  rewrite Run, (V m eq_refl). reflexivity.
Qed.

(** C9, as the code has it: two calls with the same inline overrides
    and the same directory, made with the same working directory and
    the same file system, come out the same (the same configuration, or
    the same error) provided the script module, when it is the
    configuration file, evaluates to the same namespace in both. *)
Theorem C9_same_inputs_same_outcome (w1 w2 : World) (inlineConfig : jsval)
        (dir : option string) :
  cwd w1 = cwd w2 ->
  (forall p, existsSync w1 p = existsSync w2 p) ->
  (forall p, readFileSync w1 p = readFileSync w2 p) ->
  (forall p, resolveConfigPath w1 (directory_or_cwd w1 dir) = Some p ->
             path.extname p = ".js" ->
             tsImport w1 (pathToFileURL p) "./" = tsImport w2 (pathToFileURL p) "./") ->
  getConfig w1 inlineConfig dir = getConfig w2 inlineConfig dir.
Proof.
  intros Hcwd Hex Hrd Hmod.
  assert (Hdir : directory_or_cwd w1 dir = directory_or_cwd w2 dir).
  { destruct dir; [reflexivity | exact Hcwd]. }
  assert (Hpath : forall d, resolveConfigPath w1 d = resolveConfigPath w2 d).
  { intros d. unfold resolveConfigPath. cbv zeta. now rewrite Hcwd, !Hex. }
  assert (Hmerged : mergedConfig w1 (inline_or_empty inlineConfig)
                      (directory_or_cwd w1 dir)
                    = mergedConfig w2 (inline_or_empty inlineConfig)
                        (directory_or_cwd w1 dir)).
  { unfold mergedConfig. cbv zeta. rewrite <- Hpath.
    destruct (resolveConfigPath w1 (directory_or_cwd w1 dir)) as [p |] eqn:Ep;
      [| reflexivity].
    unfold readConfig.
    destruct (String.eqb (path.extname p) ".json").
    - unfold readConfig_json. now rewrite Hrd.
    - destruct (String.eqb (path.extname p) ".js") eqn:Ejs; [| reflexivity].
      apply String.eqb_eq in Ejs.
      unfold readConfig_js. cbv zeta. now rewrite (Hmod p eq_refl Ejs). }
  assert (Hplace : forall d config, resolvePaths w1 d config = resolvePaths w2 d config).
  { intros d config. unfold resolvePaths. now rewrite Hcwd. }
  unfold getConfig. cbv zeta. rewrite <- Hdir, Hmerged.
  destruct (mergedConfig w2 _ _) as [m |]; [| reflexivity]. cbn [bind].
  destruct (rewriteExtension m) as [m' |]; [| reflexivity]. cbn [bind].
  now rewrite Hplace.
Qed.

(* ================================================================== *)
(** * Further properties of the code *)
(* ================================================================== *)

Lemma in_shape_indexToken :
  In ("indexToken", ZDefault (ZOptional ZString) (VStr "index")) configShape.
Proof. simpl. tauto. Qed.

Lemma in_shape_routeToken :
  In ("routeToken", ZDefault (ZOptional ZString) (VStr "route")) configShape.
Proof. simpl. tauto. Qed.

(** The two tokens of a parsed configuration are strings. *)
Lemma parsed_tokens (v c : jsval) :
  parse configSchema v = Ok c ->
  exists i r, field "indexToken" c = VStr i /\ field "routeToken" c = VStr r.
Proof.
  intros H. destruct (parse_configSchema v c H) as (_ & props & _ & F).
  destruct (safeParse_string_default _ _ _ (F _ _ in_shape_indexToken)) as [i Hi].
  destruct (safeParse_string_default _ _ _ (F _ _ in_shape_routeToken)) as [r Hr].
  now exists i, r.
Qed.

(** A call that returns went through a merged configuration. *)
Lemma getConfig_ok_merged (w : World) (inlineConfig : jsval) (dir : option string)
      (c : jsval) :
  getConfig w inlineConfig dir = Ok c ->
  exists m,
    mergedConfig w (inline_or_empty inlineConfig) (directory_or_cwd w dir) = Ok m.
Proof.
  unfold getConfig. cbv zeta.
  destruct (mergedConfig w (inline_or_empty inlineConfig) (directory_or_cwd w dir))
    as [m |]; [eauto | discriminate].
Qed.

(** A reader that throws makes the call throw the same. *)
Lemma getConfig_load_failure (w : World) (inlineConfig : jsval)
      (dir : option string) (p : string) (l : loader) (e : error) :
  resolveConfigPath w (directory_or_cwd w dir) = Some p ->
  readConfig (path.extname p) = Some l ->
  l w p = Throw e ->
  getConfig w inlineConfig dir = Throw e.
Proof.
  intros Hp Hl He. unfold getConfig, mergedConfig. cbv zeta.
  rewrite Hp, Hl. cbn [bind]. rewrite He. reflexivity.
Qed.

(** X1: a merged configuration without the deprecated flag whose
    [indexToken] equals its [routeToken] makes [getConfig] fail with the
    token-collision error, whatever the ignore prefix is. *)
Theorem X1_token_collision (w : World) (inlineConfig : jsval)
        (dir : option string) (m : jsval) :
  mergedConfig w (inline_or_empty inlineConfig) (directory_or_cwd w dir) = Ok m ->
  experimental_enableCodeSplitting m = VUndef ->
  field "indexToken" m = field "routeToken" m ->
  getConfig w inlineConfig dir = Throw (Error MsgTokenCollision).
Proof.
  intros Hm Hflag Heq.
  destruct (mergedConfig_parsed _ _ _ _ Hm) as [v Hv].
  destruct (parsed_tokens v m Hv) as (i & r & Hi & Hr).
  destruct (getConfig_run w inlineConfig dir m Hm) as (rd & gt & _ & _ & Run & _).
  rewrite Run. unfold validateConfig. rewrite Hflag, Heq, Hr.
  simpl. now rewrite String.eqb_refl.
Qed.

(** X2: a configuration that [getConfig] returns passes [validateConfig]
    again: it has no [experimental.enableCodeSplitting], and its
    [indexToken] and [routeToken] are two different strings. *)
Theorem X2_returned_configuration_is_valid (w : World) (inlineConfig : jsval)
        (dir : option string) (c : jsval) :
  getConfig w inlineConfig dir = Ok c ->
  validateConfig c = Ok c
  /\ experimental_enableCodeSplitting c = VUndef
  /\ exists i r,
       field "indexToken" c = VStr i /\ field "routeToken" c = VStr r /\ i <> r.
Proof.
  intros Hc. destruct (getConfig_ok_merged w inlineConfig dir c Hc) as [m Hm].
  destruct (mergedConfig_parsed _ _ _ _ Hm) as [v Hv].
  destruct (parsed_tokens v m Hv) as (i & r & Hi & Hr).
  destruct (getConfig_run w inlineConfig dir m Hm) as (rd & gt & _ & _ & Run & Same).
  rewrite Run in Hc. destruct (validateConfig m) as [a |] eqn:Ev; [| discriminate].
  injection Hc as <-.
  assert (Hexp : field "experimental"
                   (placed w (directory_or_cwd w dir) (rewritten m gt) rd
                      (rewritten_path m gt)) = field "experimental" m)
    by (apply Same; discriminate).
  split; [| split].
  - rewrite (validateConfig_reads m); rewrite ?Ev; try reflexivity;
      apply Same; discriminate.
  - unfold experimental_enableCodeSplitting. rewrite Hexp.
    unfold validateConfig in Ev.
    fold (experimental_enableCodeSplitting m).
    destruct (experimental_enableCodeSplitting m); try discriminate Ev.
    reflexivity.
  - exists i, r. rewrite !Same by discriminate.
    split; [exact Hi |]. split; [exact Hr |].
    intros ->. unfold validateConfig in Ev. rewrite Hi, Hr in Ev.
    simpl strict_eq in Ev. rewrite String.eqb_refl in Ev.
    destruct (negb _); discriminate Ev.
Qed.

(** X3: when [tsr.config.json] exists and cannot be read or is not JSON,
    [getConfig] throws what the reader threw; it does not fall back to
    the defaults. *)
Theorem X3_unreadable_json_is_fatal (w : World) (inlineConfig : jsval)
        (dir : option string) (e : error) :
  existsSync w (path.resolve (cwd w) [directory_or_cwd w dir; "tsr.config.json"])
  = true ->
  readConfig_json w (path.resolve (cwd w) [directory_or_cwd w dir; "tsr.config.json"])
  = Throw e ->
  getConfig w inlineConfig dir = Throw e.
Proof.
  intros Hex He.
  apply (getConfig_load_failure w inlineConfig dir
           (path.resolve (cwd w) [directory_or_cwd w dir; "tsr.config.json"])
           readConfig_json e); [| | exact He].
  - unfold resolveConfigPath. cbv zeta. now rewrite Hex.
  - now rewrite resolve_extname.
Qed.

(** X4: when [tsr.config.js] is the configuration file and loading it
    throws, [getConfig] throws the same. *)
Theorem X4_failing_module_is_fatal (w : World) (inlineConfig : jsval)
        (dir : option string) (e : error) :
  existsSync w (path.resolve (cwd w) [directory_or_cwd w dir; "tsr.config.json"])
  = false ->
  existsSync w (path.resolve (cwd w) [directory_or_cwd w dir; "tsr.config.js"])
  = true ->
  readConfig_js w (path.resolve (cwd w) [directory_or_cwd w dir; "tsr.config.js"])
  = Throw e ->
  getConfig w inlineConfig dir = Throw e.
Proof.
  intros Hjson Hjs He.
  apply (getConfig_load_failure w inlineConfig dir
           (path.resolve (cwd w) [directory_or_cwd w dir; "tsr.config.js"])
           readConfig_js e); [| | exact He].
  - unfold resolveConfigPath. cbv zeta. now rewrite Hjson, Hjs.
  - now rewrite resolve_extname.
Qed.

(** X10: a path that [resolveConfigPath] returns exists, is one of the
    two candidates (the script module only when the JSON file is absent),
    and has a reader: a configuration file that is found is always
    read. *)
Theorem X10_found_file_has_reader (w : World) (d p : string) :
  resolveConfigPath w d = Some p ->
  existsSync w p = true
  /\ ((p = path.resolve (cwd w) [d; "tsr.config.json"]
       /\ readConfig (path.extname p) = Some readConfig_json)
      \/ (p = path.resolve (cwd w) [d; "tsr.config.js"]
          /\ existsSync w (path.resolve (cwd w) [d; "tsr.config.json"]) = false
          /\ readConfig (path.extname p) = Some readConfig_js)).
Proof.
  unfold resolveConfigPath. cbv zeta.
  destruct (existsSync w (path.resolve (cwd w) [d; "tsr.config.json"])) eqn:Ejson.
  - intros [= <-]. split; [exact Ejson |]. left. split; [reflexivity |].
    now rewrite resolve_extname.
  - destruct (existsSync w (path.resolve (cwd w) [d; "tsr.config.js"])) eqn:Ejs;
      [| discriminate].
    intros [= <-]. split; [exact Ejs |]. right.
    split; [reflexivity |]. split; [reflexivity |].
    now rewrite resolve_extname.
Qed.

(** X15: the steps after the merge touch two options only: every other
    option of a returned configuration is the merged one. *)
Theorem X15_other_options_untouched (w : World) (inlineConfig : jsval)
        (dir : option string) (m c : jsval) (k : string) :
  mergedConfig w (inline_or_empty inlineConfig) (directory_or_cwd w dir) = Ok m ->
  getConfig w inlineConfig dir = Ok c ->
  k <> "routesDirectory" -> k <> "generatedRouteTree" ->
  field k c = field k m.
Proof.
  intros Hm Hc H1 H2.
  destruct (getConfig_run w inlineConfig dir m Hm) as (rd & gt & _ & _ & Run & Same).
  rewrite Run in Hc. destruct (validateConfig m); [| discriminate].
  injection Hc as <-. now apply Same.
Qed.

(** In either case the merged configuration is the parse of [raw]. *)
Lemma mergedConfig_raw (w : World) (inlineConfig : jsval) (d : string)
      (file : option jsval) :
  loaded w d file ->
  mergedConfig w inlineConfig d = parse configSchema (raw file inlineConfig).
Proof.
  destruct file as [f |]; simpl.
  - intros (p & l & Hp & Hl & Hf). now apply (mergedConfig_loaded w _ d p l f).
  - apply mergedConfig_alone.
Qed.

(** An issue raised by one key of a shape is among the issues of the
    object, under that key. *)
Lemma parse_fields_rejects {S : Type} (parse_one : S -> jsval -> parsed)
      (props : list (string * jsval)) (sh : list (string * S))
      (k : string) (s : S) (issue : list string) (more : list (list string)) :
  In (k, s) sh ->
  parse_one s (get_prop k props) = Invalid issue more ->
  In (k :: issue) (snd (parse_fields parse_one props sh)).
Proof.
  intros Hin Hbad. induction sh as [|[k' s'] rest IH]; simpl; [contradiction |].
  destruct (parse_fields parse_one props rest) as [out issues] eqn:E.
  destruct Hin as [[= -> ->] | Hin].
  - rewrite Hbad. simpl. now left.
  - specialize (IH Hin). simpl in IH.
    destruct (parse_one s' (get_prop k' props)) as [[] |]; simpl; try exact IH.
    right. apply in_or_app. now right.
Qed.

Lemma safeParse_object_rejects (shape : list (string * schema))
      (props : list (string * jsval)) (k : string) (s : schema)
      (issue : list string) (more : list (list string)) :
  In (k, s) shape ->
  safeParse s (get_prop k props) = Invalid issue more ->
  exists i rest,
    safeParse (ZObject shape) (VObj props) = Invalid i rest
    /\ In (k :: issue) (i :: rest).
Proof.
  intros Hin Hbad.
  pose proof (parse_fields_rejects safeParse props shape k s issue more Hin Hbad) as R.
  simpl. destruct (parse_fields safeParse props shape) as [out issues].
  simpl in R. destruct issues as [|i rest]; [contradiction |].
  exists i, rest. split; [reflexivity | exact R].
Qed.

(** X5: when the value selected for an option (the inline one, else the
    file's) is rejected by the option's schema, [getConfig] throws a
    [ZodError] that has an issue under the option's key. *)
Theorem X5_schema_violation_names_the_option (w : World) (inlineConfig : jsval)
        (dir : option string) (file : option jsval) (k : string) (s : schema)
        (issue : list string) (more : list (list string)) :
  loaded w (directory_or_cwd w dir) file ->
  In (k, s) configShape ->
  safeParse s (field k (raw file (inline_or_empty inlineConfig)))
  = Invalid issue more ->
  exists issues,
    getConfig w inlineConfig dir = Throw (ZodError issues)
    /\ In (k :: issue) issues.
Proof.
  intros Hl Hin Hbad.
  pose proof (mergedConfig_raw w (inline_or_empty inlineConfig) _ file Hl) as Hm.
  destruct (raw file (inline_or_empty inlineConfig)) as [| | | | | |props] eqn:Eraw;
    try (simpl in Hbad; rewrite (configShape_defaults k s Hin) in Hbad;
         discriminate Hbad).
  simpl field in Hbad.
  destruct (safeParse_object_rejects configShape props k s issue more Hin Hbad)
    as (i & rest & Hp & Hi).
  exists (i :: rest). split; [| exact Hi].
  unfold getConfig. cbv zeta. rewrite Hm. unfold parse, configSchema.
  now rewrite Hp.
Qed.

Lemma safeParse_object_unlisted (shape : list (string * schema)) (v c : jsval)
      (k : string) :
  safeParse (ZObject shape) v = Valid c ->
  ~ In k (map fst shape) ->
  field k c = VUndef.
Proof.
  intros H Hk. destruct v; try discriminate H. simpl in H.
  pose proof (parse_fields_unlisted safeParse props shape k Hk) as U.
  destruct (parse_fields safeParse props shape) as [out issues].
  apply conclude_valid in H as [_ ->]. simpl in *. unfold get_prop. now rewrite U.
Qed.

(** X6: a returned configuration has no option the schema does not
    declare: keys the file or the inline configuration add are dropped. *)
Theorem X6_undeclared_options_dropped (w : World) (inlineConfig : jsval)
        (dir : option string) (c : jsval) (k : string) :
  getConfig w inlineConfig dir = Ok c ->
  ~ In k (map fst configShape) ->
  field k c = VUndef.
Proof.
  intros Hc Hk. destruct (getConfig_ok_merged w inlineConfig dir c Hc) as [m Hm].
  destruct (mergedConfig_parsed _ _ _ _ Hm) as [v Hv].
  destruct (getConfig_run w inlineConfig dir m Hm) as (rd & gt & _ & _ & Run & Same).
  rewrite Run in Hc. destruct (validateConfig m); [| discriminate].
  injection Hc as <-.
  rewrite Same.
  - unfold parse in Hv. destruct (safeParse configSchema v) eqn:E; [| discriminate].
    injection Hv as ->. exact (safeParse_object_unlisted configShape v m k E Hk).
  - intros ->. apply Hk. simpl. tauto.
  - intros ->. apply Hk. simpl. tauto.
Qed.

(** What the base schemas return. *)
Lemma safeParse_base_kind (s : schema) (v r : jsval) :
  safeParse s v = Valid r ->
  match s with
  | ZString | ZEnum _ => exists x, r = VStr x
  | ZBoolean => exists b, r = VBool b
  | ZArray _ => exists items, r = VArr items
  | ZObject _ => exists props, r = VObj props
  | _ => True
  end.
Proof.
  intros H. destruct s; try exact I; destruct v; simpl in H; try discriminate H.
  - injection H as <-. eauto.
  - injection H as <-. eauto.
  - destruct (existsb _ options); [| discriminate H]. injection H as <-. eauto.
  - destruct (parse_items (safeParse s) 0 items) as [vs issues].
    apply conclude_valid in H as [_ ->]. eauto.
  - destruct (parse_fields safeParse props shape) as [out issues].
    apply conclude_valid in H as [_ ->]. eauto.
Qed.

(** An optional option with a default: the value parsed is the input, or
    the default when the input is [undefined]. *)
Lemma safeParse_default_optional (base : schema) (d v r : jsval) :
  d <> VUndef ->
  safeParse (ZDefault (ZOptional base) d) v = Valid r ->
  safeParse base (match v with VUndef => d | _ => v end) = Valid r.
Proof.
  intros Hd H. destruct v; simpl in H; try exact H.
  destruct d; try exact H. contradiction.
Qed.

Lemma default_kind (k : string) (inner : schema) (d v r : jsval) :
  In (k, ZDefault inner d) configShape ->
  safeParse (ZDefault inner d) v = Valid r ->
  same_kind d r = true.
Proof.
  intros Hin H. simpl in Hin.
  repeat (destruct Hin as [Hin | Hin];
          [ first
              [ discriminate Hin
              | injection Hin as <- <- <-;
                apply safeParse_default_optional in H; [| discriminate];
                apply safeParse_base_kind in H; destruct H as [x ->];
                reflexivity ]
          | ]).
  contradiction.
Qed.

Lemma placed_has_paths (w : World) (d : string) (config : jsval) (rd gt : string) :
  has_paths config rd gt ->
  exists rd' gt', has_paths (placed w d config rd gt) rd' gt'.
Proof.
  intros Hp. destruct (is_empty d) eqn:Ed.
  - unfold placed. rewrite Ed. eauto.
  - destruct (placed_paths w d config rd gt Hp Ed) as [P1 P2].
    do 2 eexists. split; [| split; [exact P1 | exact P2]].
    destruct Hp as ([props ->] & _). unfold placed. rewrite Ed.
    simpl. eauto.
Qed.

(** X7: in a returned configuration every option that has a schema
    default is defined and has the type of its default: a string stays a
    string, a boolean a boolean, a list a list, the scaffolding an
    object. *)
Theorem X7_defaulted_options_are_typed (w : World) (inlineConfig : jsval)
        (dir : option string) (c : jsval) (k : string) (inner : schema) (d : jsval) :
  getConfig w inlineConfig dir = Ok c ->
  In (k, ZDefault inner d) configShape ->
  same_kind d (field k c) = true.
Proof.
  intros Hc Hin. destruct (getConfig_ok_merged w inlineConfig dir c Hc) as [m Hm].
  destruct (mergedConfig_parsed _ _ _ _ Hm) as [v Hv].
  destruct (parse_configSchema v m Hv) as (_ & props & _ & F).
  pose proof (default_kind k inner d _ _ Hin (F _ _ Hin)) as Km.
  destruct (getConfig_run w inlineConfig dir m Hm) as (rd & gt & Hp & _ & Run & Same).
  rewrite Run in Hc. destruct (validateConfig m); [| discriminate].
  injection Hc as <-.
  destruct (rewriteExtension_run m rd gt Hp) as (_ & Hp' & _).
  destruct (placed_has_paths w (directory_or_cwd w dir) _ _ _ Hp')
    as (rd' & gt' & _ & Hrd' & Hgt').
  destruct Hp as (_ & Hrd & Hgt).
  destruct (String.eqb k "routesDirectory") eqn:E1.
  - apply String.eqb_eq in E1. subst k. rewrite Hrd in Km. rewrite Hrd'.
    destruct d; try discriminate Km; reflexivity.
  - destruct (String.eqb k "generatedRouteTree") eqn:E2.
    + apply String.eqb_eq in E2. subst k. rewrite Hgt in Km. rewrite Hgt'.
      destruct d; try discriminate Km; reflexivity.
    + apply String.eqb_neq in E1, E2. rewrite Same by congruence. exact Km.
Qed.

(** X18: the defaults alone are a valid configuration: in a directory
    without configuration file, a call without inline options returns,
    and every option but the two paths has its declared default. *)
Theorem X18_defaults_are_valid (w : World) (inlineConfig : jsval)
        (dir : option string) :
  resolveConfigPath w (directory_or_cwd w dir) = None ->
  inline_or_empty inlineConfig = VObj [] ->
  exists c,
    getConfig w inlineConfig dir = Ok c
    /\ forall k s, In (k, s) configShape ->
         k <> "routesDirectory" -> k <> "generatedRouteTree" ->
         field k c = declared_default s.
Proof.
  intros Hnone Hinline.
  assert (D : exists m, parse configSchema (VObj []) = Ok m
                        /\ validateConfig m = Ok m).
  { eexists. split; vm_compute; reflexivity. }
  destruct D as (m & Hparse & Hvalid).
  assert (Hm : mergedConfig w (inline_or_empty inlineConfig) (directory_or_cwd w dir)
               = Ok m).
  { rewrite Hinline, (mergedConfig_alone w (VObj []) _ Hnone). exact Hparse. }
  destruct (getConfig_run w inlineConfig dir m Hm) as (rd & gt & _ & _ & Run & Same).
  rewrite Hvalid in Run. eexists. split; [exact Run |].
  intros k s Hin H1 H2. rewrite Same by assumption.
  destruct (parse_configSchema _ _ Hparse) as (_ & props & [= <-] & F).
  specialize (F k s Hin). change (get_prop k []) with VUndef in F.
  rewrite (configShape_defaults k s Hin) in F. now injection F.
Qed.

Lemma safeParse_string_default_value (d : string) (v r : jsval) :
  safeParse (ZDefault (ZOptional ZString) (VStr d)) v = Valid r ->
  r = match v with VUndef => VStr d | _ => v end.
Proof. destruct v; simpl; intros [= <-]; reflexivity. Qed.

Lemma in_shape_customScaffolding :
  In ("customScaffolding",
      ZDefault
        (ZOptional
           (ZObject
              [ ("routeTemplate",
                  ZDefault (ZOptional ZString) (VStr defaultTemplate_routeTemplate));
                ("apiTemplate",
                  ZDefault (ZOptional ZString) (VStr defaultTemplate_apiTemplate)) ]))
        defaultTemplate) configShape.
Proof. simpl. tauto. Qed.

(** X19: when [customScaffolding] is given as an object, each of its two
    templates is defaulted on its own: a template the object leaves out
    gets the built-in text, the other one is kept, and any further key of
    the object is dropped. *)
Theorem X19_scaffolding_templates_default_separately (w : World)
        (inlineConfig : jsval) (dir : option string) (file : option jsval)
        (given : list (string * jsval)) (c : jsval) :
  loaded w (directory_or_cwd w dir) file ->
  field "customScaffolding" (raw file (inline_or_empty inlineConfig)) = VObj given ->
  getConfig w inlineConfig dir = Ok c ->
  exists out,
    field "customScaffolding" c = VObj out
    /\ get_prop "routeTemplate" out
       = match get_prop "routeTemplate" given with
         | VUndef => VStr defaultTemplate_routeTemplate
         | template => template
         end
    /\ get_prop "apiTemplate" out
       = match get_prop "apiTemplate" given with
         | VUndef => VStr defaultTemplate_apiTemplate
         | template => template
         end
    /\ forall k, k <> "routeTemplate" -> k <> "apiTemplate" ->
         get_prop k out = VUndef.
Proof.
  intros Hl Hgiven Hc.
  pose proof (mergedConfig_raw w (inline_or_empty inlineConfig) _ file Hl) as Hraw.
  destruct (getConfig_ok_merged w inlineConfig dir c Hc) as [m Hm].
  rewrite Hraw in Hm.
  destruct (parse_configSchema _ _ Hm) as (_ & props & Hprops & F).
  specialize (F _ _ in_shape_customScaffolding).
  rewrite Hprops in Hgiven. simpl field in Hgiven. rewrite Hgiven in F.
  apply safeParse_default_optional in F; [| discriminate].
  assert (Hc' : field "customScaffolding" c = field "customScaffolding" m).
  { rewrite <- Hraw in Hm.
    destruct (getConfig_run w inlineConfig dir m Hm)
      as (rd & gt & _ & _ & Run & Same).
    rewrite Run in Hc. destruct (validateConfig m); [| discriminate].
    injection Hc as <-. apply Same; discriminate. }
  rewrite Hc'.
  assert (Hnd : NoDup (map fst
            [ ("routeTemplate",
                ZDefault (ZOptional ZString) (VStr defaultTemplate_routeTemplate));
              ("apiTemplate",
                ZDefault (ZOptional ZString) (VStr defaultTemplate_apiTemplate)) ])).
  { simpl. repeat (constructor; [simpl; intuition discriminate |]). constructor. }
  destruct (safeParse_object _ _ _ Hnd F) as ([out Hout] & props' & [= <-] & G).
  pose proof (fun k Hk => safeParse_object_unlisted _ _ _ k F Hk) as U.
  rewrite Hout in *. simpl field in *.
  exists out. split; [reflexivity |].
  split; [| split].
  - rewrite (safeParse_string_default_value _ _ _
               (G "routeTemplate" _ (or_introl eq_refl))).
    destruct (get_prop "routeTemplate" given); reflexivity.
  - rewrite (safeParse_string_default_value _ _ _
               (G "apiTemplate" _ (or_intror (or_introl eq_refl)))).
    destruct (get_prop "apiTemplate" given); reflexivity.
  - intros k H1 H2. apply U. simpl. intuition congruence.
Qed.

(** Parsing a shape reads the input through [own] only. *)
Lemma parse_fields_ext {S : Type} (parse_one : S -> jsval -> parsed)
      (props props' : list (string * jsval)) (sh : list (string * S)) :
  (forall k, own k props = own k props') ->
  parse_fields parse_one props sh = parse_fields parse_one props' sh.
Proof.
  intros Hown. induction sh as [|[k s] rest IH]; simpl; [reflexivity |].
  rewrite IH. unfold get_prop, has_key. rewrite (Hown k). reflexivity.
Qed.

Lemma parse_spread_empty (f : jsval) (given : list (string * jsval)) :
  own_props f = [] ->
  parse configSchema (spread f (VObj given)) = parse configSchema (VObj given).
Proof.
  intros Hf. unfold parse, configSchema, spread. rewrite Hf.
  cbn [safeParse own_props app].
  rewrite (parse_fields_ext safeParse _ given); [reflexivity |].
  intros k. rewrite own_assignments. destruct (own k given); reflexivity.
Qed.

(** X13: a configuration file that yields nothing to spread (a module
    without default export, a JSON [null], an empty object) contributes
    nothing: the call comes out as the inline configuration alone would. *)
Theorem X13_empty_file_contributes_nothing (w : World) (inlineConfig : jsval)
        (dir : option string) (f : jsval) (given : list (string * jsval)) :
  loaded w (directory_or_cwd w dir) (Some f) ->
  own_props f = [] ->
  inline_or_empty inlineConfig = VObj given ->
  getConfig w inlineConfig dir
  = (config <- parse configSchema (VObj given) ;;
     config <- rewriteExtension config ;;
     config <- resolvePaths w (directory_or_cwd w dir) config ;;
     validateConfig config).
Proof.
  intros Hl Hf Hinline.
  pose proof (mergedConfig_raw w (inline_or_empty inlineConfig) _ _ Hl) as Hm.
  unfold getConfig. cbv zeta. rewrite Hm, Hinline. simpl raw.
  now rewrite (parse_spread_empty f given Hf).
Qed.

(** X14: an inline configuration that is neither an object nor
    [undefined] (say [null]) is a schema error at the root when no
    configuration file is found; next to a configuration file the same
    value, having nothing to spread, counts as the empty object. *)
Theorem X14_non_object_inline (w : World) (inlineConfig : jsval)
        (dir : option string) :
  inlineConfig <> VUndef ->
  (forall props, inlineConfig <> VObj props) ->
  (resolveConfigPath w (directory_or_cwd w dir) = None ->
   getConfig w inlineConfig dir = Throw (ZodError [[]]))
  /\ (own_props inlineConfig = [] ->
      forall f, loaded w (directory_or_cwd w dir) (Some f) ->
        getConfig w inlineConfig dir = getConfig w (VObj []) dir).
Proof.
  intros Hu Ho.
  assert (Hinline : inline_or_empty inlineConfig = inlineConfig).
  { destruct inlineConfig; try reflexivity. contradiction. }
  split.
  - intros Hnone. unfold getConfig. cbv zeta.
    rewrite Hinline, (mergedConfig_alone w inlineConfig _ Hnone).
    destruct inlineConfig; try reflexivity.
    exfalso. now apply (Ho props).
  - intros Hown f Hl. unfold getConfig. cbv zeta.
    rewrite Hinline.
    rewrite (mergedConfig_raw w inlineConfig _ _ Hl).
    rewrite (mergedConfig_raw w (inline_or_empty (VObj [])) _ _ Hl).
    simpl raw. unfold spread. rewrite Hown. reflexivity.
Qed.

(** Two processes with the same working directory and the same files
    present, whose reader returns the same for the configuration file
    that is found, get the same from [getConfig]. *)
Lemma getConfig_agree (w1 w2 : World) (inlineConfig : jsval) (dir : option string) :
  cwd w1 = cwd w2 ->
  (forall p, existsSync w1 p = existsSync w2 p) ->
  (forall p l, resolveConfigPath w1 (directory_or_cwd w1 dir) = Some p ->
               readConfig (path.extname p) = Some l -> l w1 p = l w2 p) ->
  getConfig w1 inlineConfig dir = getConfig w2 inlineConfig dir.
Proof.
  intros Hcwd Hex Hread.
  assert (Hdir : directory_or_cwd w1 dir = directory_or_cwd w2 dir).
  { destruct dir; [reflexivity | exact Hcwd]. }
  assert (Hpath : forall d, resolveConfigPath w1 d = resolveConfigPath w2 d).
  { intros d. unfold resolveConfigPath. cbv zeta. now rewrite Hcwd, !Hex. }
  assert (Hmerged : mergedConfig w1 (inline_or_empty inlineConfig)
                      (directory_or_cwd w1 dir)
                    = mergedConfig w2 (inline_or_empty inlineConfig)
                        (directory_or_cwd w1 dir)).
  { unfold mergedConfig. cbv zeta. rewrite <- Hpath.
    destruct (resolveConfigPath w1 (directory_or_cwd w1 dir)) as [p |] eqn:Ep;
      [| reflexivity].
    destruct (readConfig (path.extname p)) as [l |] eqn:El; [| reflexivity].
    now rewrite (Hread p l eq_refl El). }
  unfold getConfig. cbv zeta. rewrite <- Hdir, Hmerged.
  destruct (mergedConfig w2 _ _) as [m |]; [| reflexivity]. cbn [bind].
  destruct (rewriteExtension m) as [m' |]; [| reflexivity]. cbn [bind].
  unfold resolvePaths. now rewrite Hcwd.
Qed.

(** X11: when [tsr.config.json] exists no module is loaded: whatever the
    module loader would do, [getConfig] comes out the same. *)
Theorem X11_json_file_runs_no_module (w : World) (inlineConfig : jsval)
        (dir : option string) (f : string -> string -> result jsval) :
  existsSync w (path.resolve (cwd w) [directory_or_cwd w dir; "tsr.config.json"])
  = true ->
  getConfig (with_tsImport w f) inlineConfig dir = getConfig w inlineConfig dir.
Proof.
  intros Hjson. apply getConfig_agree; try reflexivity.
  intros p l Hp Hl.
  change (directory_or_cwd (with_tsImport w f) dir) with (directory_or_cwd w dir) in Hp.
  unfold resolveConfigPath in Hp. cbv zeta in Hp. simpl cwd in Hp.
  simpl existsSync in Hp. rewrite Hjson in Hp. injection Hp as <-.
  rewrite resolve_extname in Hl by reflexivity.
  injection Hl as <-. reflexivity.
Qed.

(** X12: when [tsr.config.json] does not exist [readFileSync] is never
    called: whatever [readFileSync] would return, [getConfig] comes out
    the same.  (A script module, when it is the configuration file, is
    obtained through [tsImport], which this statement leaves as it is.) *)
Theorem X12_without_json_reads_no_file (w : World) (inlineConfig : jsval)
        (dir : option string) (g : string -> result string) :
  existsSync w (path.resolve (cwd w) [directory_or_cwd w dir; "tsr.config.json"])
  = false ->
  getConfig (with_readFileSync w g) inlineConfig dir = getConfig w inlineConfig dir.
Proof.
  intros Hjson. apply getConfig_agree; try reflexivity.
  intros p l Hp Hl.
  change (directory_or_cwd (with_readFileSync w g) dir)
    with (directory_or_cwd w dir) in Hp.
  unfold resolveConfigPath in Hp. cbv zeta in Hp. simpl cwd in Hp.
  simpl existsSync in Hp. rewrite Hjson in Hp.
  destruct (existsSync w _) in Hp; [| discriminate Hp]. injection Hp as <-.
  rewrite resolve_extname in Hl by reflexivity.
  injection Hl as <-. reflexivity.
Qed.

(** An absolute last argument decides [path.resolve] alone. *)
Lemma resolve_absolute_last (c c' : string) (args : list string) (p : string) :
  path.isAbsolute p = true ->
  path.resolve c (args ++ [p]) = path.resolve c' [p].
Proof.
  intros Hp. unfold path.resolve. rewrite rev_app_distr. simpl.
  destruct p as [|x r]; [discriminate |]. simpl in Hp.
  cbn [is_empty path.isAbsolute]. rewrite Hp. reflexivity.
Qed.

(** The working directory in front of the arguments changes nothing. *)
Lemma collect_stops (l rest : list string) (c acc : string) :
  path.isAbsolute c = true ->
  path.collect (l ++ c :: rest) acc = path.collect (l ++ [c]) acc.
Proof.
  intros Hc. revert acc. induction l as [|p l' IH]; intros acc; simpl.
  - destruct c as [|x r]; [discriminate |]. simpl in *. now rewrite Hc.
  - destruct (is_empty p); [apply IH |].
    destruct (path.isAbsolute p); [reflexivity | apply IH].
Qed.

Lemma resolve_cwd_first (c : string) (args : list string) :
  path.isAbsolute c = true ->
  path.resolve c (c :: args) = path.resolve c args.
Proof.
  intros Hc. unfold path.resolve. simpl rev. rewrite <- app_assoc. simpl app.
  now rewrite (collect_stops (rev args) [c] c "" Hc).
Qed.

(** X16: a declared path that is absolute is not moved under the
    directory: the returned path is the declared one, normalized. *)
Theorem X16_absolute_declared_paths_stay (w : World) (inlineConfig : jsval)
        (dir : option string) (m c : jsval) :
  path.isAbsolute (cwd w) = true ->
  is_empty (directory_or_cwd w dir) = false ->
  mergedConfig w (inline_or_empty inlineConfig) (directory_or_cwd w dir) = Ok m ->
  getConfig w inlineConfig dir = Ok c ->
  exists rd gt,
    has_paths m rd gt
    /\ (path.isAbsolute rd = true ->
        field "routesDirectory" c = VStr (path.resolve (cwd w) [rd]))
    /\ (path.isAbsolute (rewritten_path m gt) = true ->
        field "generatedRouteTree" c
        = VStr (path.resolve (cwd w) [rewritten_path m gt])).
Proof.
  intros Hcwd Hd Hm Hc.
  destruct (getConfig_paths w inlineConfig dir m c Hcwd Hd Hm Hc)
    as (rd & gt & Hp & H1 & H2 & _).
  exists rd, gt. split; [exact Hp |]. split; intros Habs.
  - rewrite H1. f_equal. now apply resolve_absolute_last.
  - rewrite H2. f_equal. now apply resolve_absolute_last.
Qed.

(** X17: the two branches of the path step compute the same: whether
    the directory is absolute or relative, each returned path is
    [path.resolve(configDirectory, declared)]. *)
Theorem X17_one_formula_for_both_branches (w : World) (inlineConfig : jsval)
        (dir : option string) (m c : jsval) :
  path.isAbsolute (cwd w) = true ->
  is_empty (directory_or_cwd w dir) = false ->
  mergedConfig w (inline_or_empty inlineConfig) (directory_or_cwd w dir) = Ok m ->
  getConfig w inlineConfig dir = Ok c ->
  exists rd gt,
    has_paths m rd gt
    /\ field "routesDirectory" c
       = VStr (path.resolve (cwd w) [directory_or_cwd w dir; rd])
    /\ field "generatedRouteTree" c
       = VStr (path.resolve (cwd w) [directory_or_cwd w dir; rewritten_path m gt]).
Proof.
  intros Hcwd Hd Hm Hc.
  destruct (getConfig_paths w inlineConfig dir m c Hcwd Hd Hm Hc)
    as (rd & gt & Hp & H1 & H2 & _).
  exists rd, gt. split; [exact Hp |].
  unfold anchor in H1, H2.
  destruct (path.isAbsolute (directory_or_cwd w dir)).
  - split; [exact H1 | exact H2].
  - simpl app in H1, H2.
    rewrite (resolve_cwd_first (cwd w) _ Hcwd) in H1.
    rewrite (resolve_cwd_first (cwd w) _ Hcwd) in H2.
    split; [exact H1 | exact H2].
Qed.

(** A string without separator differs from any string that has one. *)
Lemma no_slash_app_slash (a b : string) : no_slash (a ++ String slash b) = false.
Proof.
  induction a as [|c r IH]; simpl.
  - reflexivity.
  - rewrite IH. apply andb_false_r.
Qed.

Lemma eqb_with_slash (a b t : string) :
  no_slash t = true -> String.eqb (a ++ String slash b) t = false.
Proof.
  intros Ht. apply String.eqb_neq. intros E.
  rewrite <- E, no_slash_app_slash in Ht. discriminate Ht.
Qed.

(** The pattern looks at the last component only. *)
Lemma replace_ts_ext_behind (q n : string) :
  replace_ts_ext (q ++ String slash n) = q ++ String slash (replace_ts_ext n).
Proof.
  induction q as [|c r IH].
  - simpl append. rewrite replace_ts_ext_unfold. reflexivity.
  - change (String c r ++ String slash n) with (String c (r ++ String slash n)).
    rewrite replace_ts_ext_unfold.
    change (String c (r ++ String slash n)) with (String c r ++ String slash n).
    rewrite !eqb_with_slash by reflexivity. simpl orb. cbv iota.
    rewrite IH. reflexivity.
Qed.

Lemma ends_with_behind (suffix q n : string) :
  no_slash suffix = true ->
  ends_with suffix (q ++ String slash n) = ends_with suffix n.
Proof.
  intros Hs. induction q as [|c r IH].
  - simpl append. rewrite ends_with_cons.
    replace (String.eqb (String slash n) suffix) with false; [reflexivity |].
    symmetry. apply (eqb_with_slash "" n suffix Hs).
  - change (String c r ++ String slash n) with (String c (r ++ String slash n)).
    rewrite ends_with_cons, IH.
    change (String c (r ++ String slash n)) with (String c r ++ String slash n).
    now rewrite eqb_with_slash.
Qed.

Lemma replace_ts_ext_no_slash (n : string) :
  no_slash n = true -> no_slash (replace_ts_ext n) = true.
Proof.
  induction n as [|c r IH]; [reflexivity |].
  intros H. rewrite replace_ts_ext_unfold.
  destruct (String.eqb (String c r) ".ts" || String.eqb (String c r) ".tsx");
    [reflexivity |].
  simpl in *. apply andb_true_iff in H as [Hc Hr]. now rewrite Hc, IH.
Qed.

(** The rewriting neither makes nor unmakes the names that are not file
    names. *)
Lemma replace_ts_ext_special (n : string) :
  (replace_ts_ext n = "" -> n = "")
  /\ (replace_ts_ext n = "." -> n = ".")
  /\ (replace_ts_ext n = ".." -> n = "..").
Proof.
  split; [| split]; intros H'.
  - destruct n as [|c0 n]; step_replace H'. reflexivity.
  - destruct n as [|c0 n]; step_replace H'. injection H' as -> H'.
    destruct n as [|c1 n]; step_replace H'. reflexivity.
  - destruct n as [|c0 n]; step_replace H'. injection H' as -> H'.
    destruct n as [|c1 n]; step_replace H'. injection H' as -> H'.
    destruct n as [|c2 n]; step_replace H'. reflexivity.
Qed.

(** A file name stays a file name. *)
Lemma replace_ts_ext_plain (n : string) :
  plain_name n = true -> plain_name (replace_ts_ext n) = true.
Proof.
  intros Hn. destruct (plain_name_facts n Hn) as (Hs & _ & _ & _).
  destruct (replace_ts_ext_special n) as (S0 & S1 & S2).
  unfold plain_name in *.
  rewrite (replace_ts_ext_no_slash n Hs). simpl andb.
  apply andb_true_iff in Hn as [Hn N2]. apply andb_true_iff in Hn as [Hn N1].
  apply andb_true_iff in Hn as [_ N0].
  apply negb_true_iff, String.eqb_neq in N0, N1, N2.
  assert (R0 : replace_ts_ext n <> "") by (intros E; now apply N0, S0).
  assert (R1 : replace_ts_ext n <> ".") by (intros E; now apply N1, S1).
  assert (R2 : replace_ts_ext n <> "..") by (intros E; now apply N2, S2).
  apply String.eqb_neq in R0, R1, R2. now rewrite R0, R1, R2.
Qed.

Lemma replace_ts_ext_names_file (p n : string) :
  names_file p n -> names_file (replace_ts_ext p) (replace_ts_ext n).
Proof.
  intros [Hn [-> | [q ->]]]; (split; [now apply replace_ts_ext_plain |]).
  - now left.
  - right. exists q. apply replace_ts_ext_behind.
Qed.

(** Normalizing a path whose last component is a file name keeps the
    name last. *)
Lemma normalizeString_behind (X n : string) (up : bool) :
  plain_name n = true ->
  (X = "" \/ exists Y, X = Y ++ "/") ->
  exists st, path.normalizeString (X ++ n ++ "/") up = join_prefix st ++ n.
Proof.
  intros Hn HX. destruct (plain_name_facts n Hn) as (Hs & _ & _ & Hstep).
  unfold path.normalizeString. destruct HX as [-> | [Y ->]].
  - exists []. simpl append.
    rewrite segments_app_slash, (segments_no_slash n Hs). simpl.
    now rewrite Hstep.
  - exists (fold_left (path.normalize_step up) (path.segments Y) []).
    rewrite append_assoc. simpl append.
    rewrite segments_app_slash, segments_app_slash, (segments_no_slash n Hs).
    rewrite !fold_left_app. simpl. rewrite Hstep.
    apply join_segments_snoc.
Qed.

(** Resolving a path that names a file: the name comes last, behind a
    separator or alone. *)
Lemma resolve_names_file (c : string) (args : list string) (p n : string) :
  names_file p n ->
  exists pre,
    (pre = "" \/ exists q, pre = q ++ "/")
    /\ path.resolve c (args ++ [p]) = pre ++ n.
Proof.
  intros [Hn Hp]. destruct (plain_name_facts n Hn) as (_ & Hne & Hna & _).
  assert (Shape : exists X abs,
            (X = "" \/ exists Y, X = Y ++ "/")
            /\ path.collect (rev (args ++ [p]) ++ [c]) "" = (X ++ n ++ "/", abs)).
  { rewrite rev_app_distr. simpl rev. simpl app.
    assert (Hpne : is_empty p = false).
    { destruct Hp as [-> | [q ->]]; [exact Hne |]. destruct q; reflexivity. }
    change (path.collect (p :: (rev args ++ [c])%list) "")
      with (if is_empty p then path.collect (rev args ++ [c]) ""
            else if path.isAbsolute p then (p ++ String slash "", true)
                 else path.collect (rev args ++ [c]) (p ++ String slash "")).
    rewrite Hpne.
    destruct (path.isAbsolute p).
    - destruct Hp as [-> | [q ->]].
      + exists "", true. split; [now left | reflexivity].
      + exists (q ++ "/"), true. split; [right; now exists q |].
        now rewrite !append_assoc.
    - rewrite collect_acc.
      destruct (collect_shape (rev args ++ [c])) as [E | [Q E]];
        rewrite E; destruct Hp as [-> | [q ->]].
      + exists "", (snd (path.collect (rev args ++ [c]) "")).
        split; [now left | reflexivity].
      + exists (q ++ "/"), (snd (path.collect (rev args ++ [c]) "")).
        split; [right; now exists q |]. simpl append. now rewrite !append_assoc.
      + exists (Q ++ "/"), (snd (path.collect (rev args ++ [c]) "")).
        split; [right; now exists Q | reflexivity].
      + exists ((Q ++ "/") ++ q ++ "/"), (snd (path.collect (rev args ++ [c]) "")).
        split; [right; exists ((Q ++ "/") ++ q); now rewrite !append_assoc |].
        now rewrite !append_assoc. }
  destruct Shape as (X & abs & HX & Hcollect).
  destruct (normalizeString_behind X n (negb abs) Hn HX) as [st Hnorm].
  unfold path.resolve. rewrite Hcollect, Hnorm.
  exists ((if abs then "/" else "") ++ join_prefix st). split.
  - unfold join_prefix. destruct st as [|s rest].
    + destruct abs; [right; now exists "" | now left].
    + right. exists ((if abs then "/" else "") ++ path.join_segments (s :: rest)).
      now rewrite append_assoc.
  - destruct abs; simpl; [reflexivity |].
    replace (is_empty (join_prefix st ++ n)) with false; [reflexivity |].
    destruct (join_prefix st); simpl; [now rewrite Hne | reflexivity].
Qed.

Lemma ends_with_behind_prefix (suffix pre n : string) :
  no_slash suffix = true ->
  (pre = "" \/ exists q, pre = q ++ "/") ->
  ends_with suffix (pre ++ n) = ends_with suffix n.
Proof.
  intros Hs [-> | [q ->]]; [reflexivity |].
  rewrite append_assoc. simpl append. now apply ends_with_behind.
Qed.

Lemma ends_with_names_file (suffix p n : string) :
  no_slash suffix = true -> names_file p n ->
  ends_with suffix p = ends_with suffix n.
Proof.
  intros Hs [_ [-> | [q ->]]]; [reflexivity | now apply ends_with_behind].
Qed.

(** X9: when the declared [generatedRouteTree] names a file (its last
    component is a file name, with no separator behind it) and
    [disableTypes] is set, the returned path ends neither in [.ts] nor in
    [.tsx]. *)
Theorem X9_file_paths_lose_the_typed_extension (w : World) (inlineConfig : jsval)
        (dir : option string) (m c : jsval) (gt n : string) :
  mergedConfig w (inline_or_empty inlineConfig) (directory_or_cwd w dir) = Ok m ->
  field "generatedRouteTree" m = VStr gt ->
  names_file gt n ->
  truthy (field "disableTypes" m) = true ->
  getConfig w inlineConfig dir = Ok c ->
  exists out,
    field "generatedRouteTree" c = VStr out
    /\ ends_with ".ts" out = false
    /\ ends_with ".tsx" out = false.
Proof.
  intros Hm Hgt Hfile Hdt Hc.
  destruct (getConfig_run w inlineConfig dir m Hm) as (rd & gt0 & Hp & _ & Run & _).
  assert (gt0 = gt) as ->.
  { destruct Hp as (_ & _ & Hgt0). rewrite Hgt in Hgt0. now injection Hgt0. }
  rewrite Run in Hc. destruct (validateConfig m); [| discriminate].
  injection Hc as <-.
  destruct (rewriteExtension_run m rd gt Hp) as (_ & Hp' & _).
  assert (Hrw : rewritten_path m gt = replace_ts_ext gt).
  { unfold rewritten_path. now rewrite Hdt. }
  rewrite Hrw in *.
  destruct (replace_ts_ext_untyped gt) as [U1 U2].
  destruct (is_empty (directory_or_cwd w dir)) eqn:Ed.
  - unfold placed. rewrite Ed. exists (replace_ts_ext gt).
    split; [apply Hp' | split; assumption].
  - destruct (placed_paths w _ _ _ _ Hp' Ed) as [_ P2].
    pose proof (replace_ts_ext_names_file gt n Hfile) as Hfile'.
    destruct (resolve_names_file (cwd w) (anchor w (directory_or_cwd w dir)) _ _ Hfile')
      as (pre & Hpre & R).
    eexists. split; [exact P2 |]. rewrite R.
    rewrite !ends_with_behind_prefix by (reflexivity || assumption).
    rewrite <- (ends_with_names_file ".ts" _ _ eq_refl Hfile').
    rewrite <- (ends_with_names_file ".tsx" _ _ eq_refl Hfile').
    split; assumption.
Qed.

Lemma replace_ts_ext_unchanged (s : string) :
  ends_with ".ts" s = false -> ends_with ".tsx" s = false ->
  replace_ts_ext s = s.
Proof.
  induction s as [|c r IH]; [reflexivity |].
  rewrite !ends_with_cons. intros H1 H2.
  apply orb_false_iff in H1 as [E1 H1]. apply orb_false_iff in H2 as [E2 H2].
  rewrite replace_ts_ext_unfold, E1, E2. simpl. now rewrite IH.
Qed.

Lemma string_length_app (a b : string) :
  String.length (a ++ b) = String.length a + String.length b.
Proof. induction a as [|x r IH]; simpl; [reflexivity | now rewrite IH]. Qed.

Lemma replace_ts_ext_suffix (stem : string) :
  replace_ts_ext (stem ++ ".ts") = stem ++ ".js"
  /\ replace_ts_ext (stem ++ ".tsx") = stem ++ ".js".
Proof.
  induction stem as [|c r [IH1 IH2]]; [split; reflexivity |].
  pose proof (string_length_app r) as L.
  split.
  - change (String c r ++ ".ts") with (String c (r ++ ".ts")).
    rewrite replace_ts_ext_unfold, IH1.
    replace (String.eqb (String c (r ++ ".ts")) ".ts") with false.
    + replace (String.eqb (String c (r ++ ".ts")) ".tsx") with false; [reflexivity |].
      symmetry. apply String.eqb_neq. intros E.
      pose proof (f_equal String.length E) as EL. simpl in EL.
      rewrite L in EL. simpl in EL.
      destruct r; [discriminate E | simpl in EL; lia].
    + symmetry. apply String.eqb_neq. intros E.
      apply (f_equal String.length) in E. simpl in E. rewrite L in E. simpl in E. lia.
  - change (String c r ++ ".tsx") with (String c (r ++ ".tsx")).
    rewrite replace_ts_ext_unfold, IH2.
    replace (String.eqb (String c (r ++ ".tsx")) ".ts") with false.
    + replace (String.eqb (String c (r ++ ".tsx")) ".tsx") with false; [reflexivity |].
      symmetry. apply String.eqb_neq. intros E.
      apply (f_equal String.length) in E. simpl in E. rewrite L in E. simpl in E. lia.
    + symmetry. apply String.eqb_neq. intros E.
      apply (f_equal String.length) in E. simpl in E. rewrite L in E. simpl in E. lia.
Qed.

(** X8: the extension step.  Without [disableTypes] the configuration is
    left as it is.  With it, only [generatedRouteTree] changes: a final
    [.ts] or [.tsx] becomes [.js], a string without such an ending stays
    the same, and in either case the result ends neither in [.ts] nor in
    [.tsx]. *)
Theorem X8_extension_step (config config' : jsval) (rd gt : string) :
  has_paths config rd gt ->
  rewriteExtension config = Ok config' ->
  (truthy (field "disableTypes" config) = false -> config' = config)
  /\ (truthy (field "disableTypes" config) = true ->
      field "generatedRouteTree" config' = VStr (replace_ts_ext gt)
      /\ (forall k, k <> "generatedRouteTree" -> field k config' = field k config)
      /\ ends_with ".ts" (replace_ts_ext gt) = false
      /\ ends_with ".tsx" (replace_ts_ext gt) = false
      /\ (forall stem, gt = stem ++ ".ts" \/ gt = stem ++ ".tsx" ->
            replace_ts_ext gt = stem ++ ".js")
      /\ (ends_with ".ts" gt = false -> ends_with ".tsx" gt = false ->
          replace_ts_ext gt = gt)).
Proof.
  intros Hp Hr.
  destruct (rewriteExtension_run config rd gt Hp) as (R1 & R2 & R3).
  rewrite R1 in Hr. injection Hr as <-.
  unfold rewritten, rewritten_path in *.
  destruct (truthy (field "disableTypes" config)).
  - split; [discriminate |]. intros _.
    split; [apply R2 |]. split; [exact R3 |].
    destruct (replace_ts_ext_untyped gt) as [U1 U2].
    split; [exact U1 |]. split; [exact U2 |].
    split; [| apply replace_ts_ext_unchanged].
    intros stem [-> | ->]; apply replace_ts_ext_suffix.
  - split; [reflexivity | discriminate].
Qed.

(* ================================================================== *)
(** * The returned configuration, option by option *)
(* ================================================================== *)

(** What a call that returns hands back, in terms of the merged
    configuration: the two paths after the extension and path steps,
    every other option as merged. *)
Lemma getConfig_returned (w : World) (inlineConfig : jsval) (dir : option string)
      (m c : jsval) :
  mergedConfig w (inline_or_empty inlineConfig) (directory_or_cwd w dir) = Ok m ->
  getConfig w inlineConfig dir = Ok c ->
  exists rd gt,
    has_paths m rd gt
    /\ (forall k, k <> "routesDirectory" -> k <> "generatedRouteTree" ->
          field k c = field k m)
    /\ field "routesDirectory" c
       = VStr (if is_empty (directory_or_cwd w dir) then rd
               else path.resolve (cwd w) (anchor w (directory_or_cwd w dir) ++ [rd]))
    /\ field "generatedRouteTree" c
       = VStr (if is_empty (directory_or_cwd w dir) then rewritten_path m gt
               else path.resolve (cwd w)
                      (anchor w (directory_or_cwd w dir) ++ [rewritten_path m gt])).
Proof.
  intros Hm Hc.
  destruct (getConfig_run w inlineConfig dir m Hm) as (rd & gt & Hp & _ & Run & Same).
  rewrite Run in Hc. destruct (validateConfig m); [| discriminate].
  injection Hc as <-.
  exists rd, gt. split; [exact Hp |].
  split; [intros k Hk1 Hk2; apply Same; assumption |].
  destruct (rewriteExtension_run m rd gt Hp) as (_ & Hp' & _).
  destruct (is_empty (directory_or_cwd w dir)) eqn:Ed.
  - unfold placed. rewrite Ed. split; apply Hp'.
  - exact (placed_paths w _ _ _ _ Hp' Ed).
Qed.



(** C1, as the code has it: with a configuration file object [file]
    loaded, the options are merged with precedence inline > file >
    schema default, whole option by whole option.  The value selected for
    an option is the inline one when the key is supplied inline, else
    the file's when the file supplies the key; the merged option is that
    value as its schema reads it: the value itself when it is a defined
    string, boolean, enum member or list of strings, the schema default
    when it is [undefined] or nothing is selected, the schema's parse of
    it for the structured options.  In the returned configuration every
    option but the two paths is the merged one; [routesDirectory] and
    [generatedRouteTree] are the merged ones after the extension and the
    path step. *)
Theorem C1_precedence_through_schema (w : World) (inlineConfig : jsval)
        (dir : option string) (p : string) (l : loader) (file c : jsval)
        (k : string) (s : schema) :
  resolveConfigPath w (directory_or_cwd w dir) = Some p ->
  readConfig (path.extname p) = Some l ->
  l w p = Ok file ->
  getConfig w inlineConfig dir = Ok c ->
  In (k, s) configShape ->
  exists m rd gt,
    mergedConfig w (inline_or_empty inlineConfig) (directory_or_cwd w dir) = Ok m
    /\ match supplied k (inline_or_empty inlineConfig) with
       | Some v => resolves s v (field k m)
       | None =>
           match supplied k file with
           | Some v => resolves s v (field k m)
           | None => field k m = declared_default s
           end
       end
    /\ (k <> "routesDirectory" -> k <> "generatedRouteTree" ->
        field k c = field k m)
    /\ has_paths m rd gt
    /\ field "routesDirectory" c
       = VStr (if is_empty (directory_or_cwd w dir) then rd
               else path.resolve (cwd w) (anchor w (directory_or_cwd w dir) ++ [rd]))
    /\ field "generatedRouteTree" c
       = VStr (if is_empty (directory_or_cwd w dir) then rewritten_path m gt
               else path.resolve (cwd w)
                      (anchor w (directory_or_cwd w dir) ++ [rewritten_path m gt])).
Proof.
  intros Hp Hl Hf Hc Hin.
  destruct (getConfig_ok_merged w inlineConfig dir c Hc) as [m Hm].
  destruct (getConfig_returned w inlineConfig dir m c Hm Hc)
    as (rd & gt & Hpaths & Same & Hrd & Hgt).
  exists m, rd, gt. split; [exact Hm |].
  split.
  { exact (merged_option_precedence w (inline_or_empty inlineConfig) _ p l file m k s
             Hp Hl Hf Hm Hin). }
  split; [apply Same |].
  split; [exact Hpaths |]. split; [exact Hrd | exact Hgt].
Qed.


(** C8, as the code has it: a merged configuration whose
    [routeFileIgnorePrefix] trims to [_] makes [getConfig] fail with the
    error of the first check that fails: the deprecated-flag error when
    [experimental.enableCodeSplitting] is defined; otherwise the
    token-collision error when [indexToken] equals [routeToken];
    otherwise the reserved-prefix error.  Hence a returned configuration
    never has a [routeFileIgnorePrefix] that trims to [_]. *)
Theorem C8_reserved_prefix_rejected (w : World) (inlineConfig : jsval)
        (dir : option string) (m : jsval) :
  mergedConfig w (inline_or_empty inlineConfig) (directory_or_cwd w dir) = Ok m ->
  exists prefix,
    field "routeFileIgnorePrefix" m = VStr prefix
    /\ (trim prefix = "_" ->
        (exists e, getConfig w inlineConfig dir = Throw (Error e))
        /\ (experimental_enableCodeSplitting m <> VUndef ->
            getConfig w inlineConfig dir = Throw (Error MsgDeprecatedFlag))
        /\ (experimental_enableCodeSplitting m = VUndef ->
            field "indexToken" m = field "routeToken" m ->
            getConfig w inlineConfig dir = Throw (Error MsgTokenCollision))
        /\ (experimental_enableCodeSplitting m = VUndef ->
            field "indexToken" m <> field "routeToken" m ->
            getConfig w inlineConfig dir = Throw (Error MsgReservedPrefix)))
    /\ forall c, getConfig w inlineConfig dir = Ok c ->
         field "routeFileIgnorePrefix" c = VStr prefix /\ trim prefix <> "_".
Proof.
  intros Hm.
  destruct (mergedConfig_parsed _ _ _ _ Hm) as [v Hv].
  destruct (parsed_prefix_string v m Hv) as [prefix Hprefix].
  destruct (parsed_tokens v m Hv) as (i & r & Hi & Hr).
  destruct (getConfig_run w inlineConfig dir m Hm)
    as (rd & gt & _ & _ & Run & Same).
  exists prefix. split; [exact Hprefix |].
  assert (V : trim prefix = "_" ->
              validateConfig m
              = if negb (is_undefined (experimental_enableCodeSplitting m))
                then Throw (Error MsgDeprecatedFlag)
                else if String.eqb i r
                     then Throw (Error MsgTokenCollision)
                     else Throw (Error MsgReservedPrefix)).
  { intros Ht. unfold validateConfig. rewrite Hi, Hr. cbn [strict_eq].
    destruct (negb _); [reflexivity |].
    destruct (String.eqb i r); [reflexivity |].
    rewrite Hprefix. cbn [truthy as_string bind].
    destruct prefix; [discriminate Ht |]. cbn [is_empty negb].
    rewrite Ht. reflexivity. }
  split.
  - intros Ht. rewrite Run, (V Ht). rewrite Hi, Hr.
    split; [| split; [| split]].
    + destruct (negb _); [eauto |]. destruct (String.eqb i r); eauto.
    + intros Hflag.
      destruct (experimental_enableCodeSplitting m); try reflexivity.
      contradiction.
    + intros Hflag [= ->]. rewrite Hflag, String.eqb_refl. reflexivity.
    + intros Hflag Hne. rewrite Hflag.
      replace (String.eqb i r) with false; [reflexivity |].
      symmetry. apply String.eqb_neq. congruence.
  - intros c Hc. rewrite Run in Hc.
    destruct (validateConfig m) eqn:Ev; [| discriminate].
    injection Hc as <-. split.
    + rewrite Same; [exact Hprefix | discriminate | discriminate].
    + intros Ht. specialize (V Ht). revert V.
      destruct (negb _); [discriminate |].
      destruct (String.eqb i r); discriminate.
Qed.

End Config.

(* ================================================================== *)
(** * The statements at sample inputs *)
(* ================================================================== *)

(** The loader's own test: the module is found, and the configuration
    has the module's options with the two paths anchored in the
    directory. *)
Example load_config_test :
  resolveConfigPath test_world "/repo/tests/config/js-config-module"
  = Some "/repo/tests/config/js-config-module/tsr.config.js"
  /\ exists c,
       getConfig no_virtual_routes sample_JSON_parse file_url test_world
         (VObj []) (Some "/repo/tests/config/js-config-module") = Ok c
       /\ field "disableLogging" c = VBool true
       /\ field "routesDirectory" c
          = VStr "/repo/tests/config/js-config-module/configured-routes-path"
       /\ field "generatedRouteTree" c
          = VStr "/repo/tests/config/js-config-module/routeTree.gen.ts".
Proof.
  split; [reflexivity |].
  eexists. split; [vm_compute; reflexivity |].
  repeat split; reflexivity.
Qed.

(** With [disableTypes] and the default generated tree, the path ends in
    [.js]. *)
Example disableTypes_default :
  exists c,
    getConfig no_virtual_routes sample_JSON_parse file_url (bare_world "/proj")
      (VObj [("disableTypes", VBool true)]) (Some "/proj") = Ok c
    /\ field "generatedRouteTree" c = VStr "/proj/src/routeTree.gen.js".
Proof.
  eexists. split; [vm_compute; reflexivity |]. reflexivity.
Qed.

(** C1 at a file that declares [routesDirectory: "a"] and an inline
    configuration that declares [routesDirectory: "b"], in [/proj]: the
    merged option is [b], the returned one [/proj/b]. *)
Lemma C1_witness :
  exists c m,
    getConfig no_virtual_routes sample_JSON_parse file_url json_world
      (VObj [("routesDirectory", VStr "b")]) (Some "/proj") = Ok c
    /\ mergedConfig no_virtual_routes sample_JSON_parse file_url json_world
         (VObj [("routesDirectory", VStr "b")]) "/proj" = Ok m
    /\ field "routesDirectory" m = VStr "b"
    /\ field "routesDirectory" c = VStr "/proj/b".
Proof.
  eexists.
  destruct (C1_precedence_through_schema no_virtual_routes sample_JSON_parse file_url
              json_world (VObj [("routesDirectory", VStr "b")]) (Some "/proj")
              "/proj/tsr.config.json" (readConfig_json sample_JSON_parse)
              (VObj [("routesDirectory", VStr "a")]) _ "routesDirectory" _
              eq_refl eq_refl eq_refl eq_refl
              (in_shape_routesDirectory no_virtual_routes))
    as (m & rd & gt & Hm & Hsel & _ & (_ & Hrd0 & _) & Hrd & _).
  exists m.
  change (resolves (ZDefault (ZOptional ZString) (VStr "./src/routes")) (VStr "b")
            (field "routesDirectory" m)) in Hsel.
  destruct Hsel as (_ & Hv & _).
  assert (Hb : field "routesDirectory" m = VStr "b")
    by (apply Hv; [reflexivity | discriminate]).
  rewrite Hb in Hrd0. injection Hrd0 as <-.
  split; [reflexivity |]. split; [exact Hm |]. split; [exact Hb | exact Hrd].
Defined.

(** C1 as stated fails: it is not the case that each option of the
    returned configuration is the inline value when the key is supplied
    inline, else the file's value, else the default.  With a file that
    declares [apiBase: "/a"] and an inline [apiBase: undefined] the
    returned [apiBase] is the default [/api]: neither the inline value
    nor the file's. *)
Lemma C1_counterexample :
  ~ (forall (vs : schema) (jp : string -> result jsval) (url : string -> string)
            (w : World) (inlineConfig : jsval) (dir : option string) (p : string)
            (l : loader) (file c : jsval) (k : string) (s : schema),
        resolveConfigPath w (directory_or_cwd w dir) = Some p ->
        readConfig jp url (path.extname p) = Some l ->
        l w p = Ok file ->
        getConfig vs jp url w inlineConfig dir = Ok c ->
        In (k, s) (configShape vs) ->
        match supplied k inlineConfig with
        | Some v => field k c = v
        | None =>
            match supplied k file with
            | Some v => field k c = v
            | None => field k c = declared_default s
            end
        end).
Proof.
  intros Claim.
  assert (Hin : In ("apiBase", ZDefault (ZOptional ZString) (VStr "/api"))
                   (configShape no_virtual_routes)) by (simpl; tauto).
  pose proof (Claim no_virtual_routes sample_JSON_parse file_url (script_world "/a")
                (VObj [("apiBase", VUndef)]) (Some "/proj") "/proj/tsr.config.js"
                (readConfig_js file_url) (VObj [("apiBase", VStr "/a")]) _
                "apiBase" _ eq_refl eq_refl eq_refl eq_refl Hin) as H.
  vm_compute in H. discriminate H.
Qed.

(** C10 at the file that declares [routesDirectory: "a"] and an inline
    [routesDirectory: undefined]. *)
Lemma C10_witness :
  exists c,
    mergedConfig no_virtual_routes sample_JSON_parse file_url json_world
      (VObj [("routesDirectory", VUndef)]) "/proj" = Ok c
    /\ field "routesDirectory" c = VStr "./src/routes".
Proof.
  eexists. split; [vm_compute; reflexivity |].
  exact (C10_inline_undefined_overrides no_virtual_routes sample_JSON_parse file_url
           json_world (VObj [("routesDirectory", VUndef)]) "/proj"
           "/proj/tsr.config.json" (readConfig_json sample_JSON_parse)
           (VObj [("routesDirectory", VStr "a")]) _ "routesDirectory" _
           eq_refl eq_refl eq_refl eq_refl
           (in_shape_routesDirectory no_virtual_routes) eq_refl).
Defined.

(** C2 in a directory that holds both files. *)
Lemma C2_witness :
  resolveConfigPath both_files_world "/proj" = Some "/proj/tsr.config.json"
  /\ resolveConfigPath both_files_world "/proj" <> Some "/proj/tsr.config.js".
Proof.
  destruct (C2_json_before_js both_files_world "/proj" eq_refl)
    as (_ & _ & _ & _ & _ & W).
  exact (W eq_refl).
Defined.

(** C4 in [/proj], nothing declared. *)
Lemma C4_witness :
  exists c,
    getConfig no_virtual_routes sample_JSON_parse file_url (bare_world "/proj")
      (VObj []) None = Ok c
    /\ field "routesDirectory" c = VStr "/proj/src/routes"
    /\ field "generatedRouteTree" c = VStr "/proj/src/routeTree.gen.ts".
Proof.
  eexists. split; [vm_compute; reflexivity |].
  destruct (C4_no_directory_means_cwd no_virtual_routes sample_JSON_parse file_url
              (bare_world "/proj") (VObj []) _ eq_refl eq_refl) as [_ W].
  destruct (W _ eq_refl) as (rd & gt & (_ & Hrd & Hgt) & W1 & W2 & _).
  injection Hrd as <-. injection Hgt as <-.
  split; [exact W1 | exact W2].
Defined.

(** C4 as stated fails: it is not the case that, whenever no directory
    is passed, the two paths of the returned configuration are the
    declared ones.  In [/proj] with nothing declared the returned
    [routesDirectory] is [/proj/src/routes], the declared one
    [./src/routes]. *)
Lemma C4_counterexample :
  ~ (forall (vs : schema) (jp : string -> result jsval) (url : string -> string)
            (w : World) (inlineConfig m c : jsval) (rd gt : string),
        path.isAbsolute (cwd w) = true ->
        mergedConfig vs jp url w (inline_or_empty inlineConfig) (cwd w) = Ok m ->
        has_paths m rd gt ->
        getConfig vs jp url w inlineConfig None = Ok c ->
        field "routesDirectory" c = VStr rd
        /\ field "generatedRouteTree" c = VStr (rewritten_path m gt)).
Proof.
  intros Claim.
  destruct (Claim no_virtual_routes sample_JSON_parse file_url (bare_world "/proj")
              (VObj []) _ _ "./src/routes" "./src/routeTree.gen.ts"
              eq_refl eq_refl
              (conj (ex_intro _ _ eq_refl) (conj eq_refl eq_refl)) eq_refl)
    as [Hrd _].
  vm_compute in Hrd. discriminate Hrd.
Qed.

(** C5 with the absolute directory [/proj], in a process that runs
    elsewhere. *)
Lemma C5_witness :
  exists c,
    getConfig no_virtual_routes sample_JSON_parse file_url (bare_world "/home/me")
      (VObj []) (Some "/proj") = Ok c
    /\ field "routesDirectory" c = VStr "/proj/src/routes"
    /\ field "generatedRouteTree" c = VStr "/proj/src/routeTree.gen.ts".
Proof.
  eexists. split; [vm_compute; reflexivity |].
  assert (Hne : "/proj" <> "") by discriminate.
  destruct (C5_directory_anchors_paths no_virtual_routes sample_JSON_parse file_url
              (bare_world "/home/me") (VObj []) "/proj" _ _ eq_refl Hne
              eq_refl eq_refl)
    as (rd & gt & (_ & Hrd & Hgt) & W1 & W2 & _).
  injection Hrd as <-. injection Hgt as <-.
  split; [exact W1 | exact W2].
Defined.

(** C5 as stated fails: it is not the case that, whatever directory is
    passed, the two paths of the returned configuration are absolute.
    With the empty string passed they stay as declared: [./src/routes]. *)
Lemma C5_counterexample :
  ~ (forall (vs : schema) (jp : string -> result jsval) (url : string -> string)
            (w : World) (inlineConfig c : jsval) (d : string),
        path.isAbsolute (cwd w) = true ->
        getConfig vs jp url w inlineConfig (Some d) = Ok c ->
        exists rd gt,
          field "routesDirectory" c = VStr rd
          /\ field "generatedRouteTree" c = VStr gt
          /\ path.isAbsolute rd = true
          /\ path.isAbsolute gt = true).
Proof.
  intros Claim.
  destruct (Claim no_virtual_routes sample_JSON_parse file_url (bare_world "/proj")
              (VObj []) _ "" eq_refl eq_refl)
    as (rd & gt & Hrd & _ & Habs & _).
  vm_compute in Hrd. injection Hrd as <-. discriminate Habs.
Qed.

(** C6 at a configuration that trips all three checks, the flag being
    [false]. *)
Lemma C6_witness :
  getConfig no_virtual_routes sample_JSON_parse file_url (bare_world "/proj")
    flagged_inline (Some "/proj")
  = Throw (Error MsgDeprecatedFlag).
Proof.
  assert (Hflag : VBool false <> VUndef) by discriminate.
  exact (proj1 (C6_deprecated_flag_first no_virtual_routes sample_JSON_parse file_url
                  (bare_world "/proj") flagged_inline (Some "/proj") _
                  eq_refl Hflag)).
Defined.


(** C8 at a prefix padded with white space, the other options left at
    their defaults. *)
Lemma C8_witness :
  getConfig no_virtual_routes sample_JSON_parse file_url (bare_world "/proj")
    (VObj [("routeFileIgnorePrefix", VStr " _ ")]) (Some "/proj")
  = Throw (Error MsgReservedPrefix).
Proof.
  destruct (C8_reserved_prefix_rejected no_virtual_routes sample_JSON_parse file_url
              (bare_world "/proj") (VObj [("routeFileIgnorePrefix", VStr " _ ")])
              (Some "/proj") _ eq_refl) as (prefix & Hprefix & W & _).
  injection Hprefix as <-.
  destruct (W eq_refl) as (_ & _ & _ & R).
  apply R; [reflexivity |]. intros E. vm_compute in E. discriminate E.
Defined.

(** C8 as stated fails: it is not the case that every merged
    configuration whose prefix trims to [_] makes [getConfig] fail with
    the reserved-prefix error.  With two equal tokens next to the prefix
    [_] the error is the token-collision one. *)
Lemma C8_counterexample :
  ~ (forall (vs : schema) (jp : string -> result jsval) (url : string -> string)
            (w : World) (inlineConfig : jsval) (dir : option string)
            (m : jsval) (prefix : string),
        mergedConfig vs jp url w (inline_or_empty inlineConfig)
          (directory_or_cwd w dir) = Ok m ->
        field "routeFileIgnorePrefix" m = VStr prefix ->
        trim prefix = "_" ->
        getConfig vs jp url w inlineConfig dir = Throw (Error MsgReservedPrefix)).
Proof.
  intros Claim.
  pose proof (Claim no_virtual_routes sample_JSON_parse file_url (bare_world "/proj")
                (VObj [ ("routeFileIgnorePrefix", VStr "_");
                        ("indexToken", VStr "x"); ("routeToken", VStr "x") ])
                (Some "/proj") _ "_" eq_refl eq_refl eq_refl) as H.
  vm_compute in H. discriminate H.
Qed.

(** C9 at two processes that differ in what their loader makes of other
    modules, and agree on the configuration module. *)
Lemma C9_witness :
  getConfig no_virtual_routes sample_JSON_parse file_url (script_world "/1")
    (VObj []) (Some "/proj")
  = getConfig no_virtual_routes sample_JSON_parse file_url (script_world_only "/1")
      (VObj []) (Some "/proj").
Proof.
  apply C9_same_inputs_same_outcome; try reflexivity.
  intros p Hp _. vm_compute in Hp. injection Hp as <-. reflexivity.
Defined.

(** C9 as stated fails: it is not the case that two calls with the same
    arguments, the same working directory and the same files come out
    the same.  Where [tsr.config.js] is a module whose export depends on
    the moment it runs, they differ. *)
Lemma C9_counterexample :
  ~ (forall (vs : schema) (jp : string -> result jsval) (url : string -> string)
            (w1 w2 : World) (inlineConfig : jsval) (dir : option string),
        cwd w1 = cwd w2 ->
        (forall p, existsSync w1 p = existsSync w2 p) ->
        (forall p, readFileSync w1 p = readFileSync w2 p) ->
        getConfig vs jp url w1 inlineConfig dir
        = getConfig vs jp url w2 inlineConfig dir).
Proof.
  intros Claim.
  pose proof (Claim no_virtual_routes sample_JSON_parse file_url
                (script_world "/1") (script_world "/2") (VObj []) (Some "/proj")
                eq_refl (fun _ => eq_refl) (fun _ => eq_refl)) as H.
  vm_compute in H. discriminate H.
Qed.

(* ================================================================== *)
(** * The further properties at sample inputs *)
(* ================================================================== *)

(** X1 at two equal tokens next to a reserved prefix. *)
Lemma X1_witness :
  getConfig no_virtual_routes sample_JSON_parse file_url (bare_world "/proj")
    (VObj [ ("routeFileIgnorePrefix", VStr "_");
            ("indexToken", VStr "x"); ("routeToken", VStr "x") ])
    (Some "/proj")
  = Throw (Error MsgTokenCollision).
Proof.
  exact (X1_token_collision no_virtual_routes sample_JSON_parse file_url
           (bare_world "/proj")
           (VObj [ ("routeFileIgnorePrefix", VStr "_");
                   ("indexToken", VStr "x"); ("routeToken", VStr "x") ])
           (Some "/proj") _ eq_refl eq_refl eq_refl).
Defined.

(** X2 at the defaults. *)
Lemma X2_witness :
  exists c,
    getConfig no_virtual_routes sample_JSON_parse file_url (bare_world "/proj")
      (VObj []) (Some "/proj") = Ok c
    /\ validateConfig c = Ok c.
Proof.
  eexists. split; [vm_compute; reflexivity |].
  exact (proj1 (X2_returned_configuration_is_valid no_virtual_routes
                  sample_JSON_parse file_url (bare_world "/proj") (VObj [])
                  (Some "/proj") _ eq_refl)).
Defined.

(** X3 at a [tsr.config.json] that is not JSON. *)
Lemma X3_witness :
  getConfig no_virtual_routes sample_JSON_parse file_url broken_json_world
    (VObj []) (Some "/proj")
  = Throw (HostError "SyntaxError").
Proof.
  exact (X3_unreadable_json_is_fatal no_virtual_routes sample_JSON_parse file_url
           broken_json_world (VObj []) (Some "/proj") _ eq_refl eq_refl).
Defined.

(** X4 at a module that throws when loaded. *)
Lemma X4_witness :
  getConfig no_virtual_routes sample_JSON_parse file_url failing_module_world
    (VObj []) (Some "/proj")
  = Throw (HostError "boom").
Proof.
  exact (X4_failing_module_is_fatal no_virtual_routes sample_JSON_parse file_url
           failing_module_world (VObj []) (Some "/proj") _ eq_refl eq_refl eq_refl).
Defined.

(** X5 at an inline [semicolons] that is a string. *)
Lemma X5_witness :
  exists issues,
    getConfig no_virtual_routes sample_JSON_parse file_url (bare_world "/proj")
      (VObj [("semicolons", VStr "yes")]) (Some "/proj")
    = Throw (ZodError issues)
    /\ In ["semicolons"] issues.
Proof.
  assert (Hin : In ("semicolons", ZDefault (ZOptional ZBoolean) (VBool false))
                   (configShape no_virtual_routes)) by (simpl; tauto).
  exact (X5_schema_violation_names_the_option no_virtual_routes sample_JSON_parse
           file_url (bare_world "/proj") (VObj [("semicolons", VStr "yes")])
           (Some "/proj") None "semicolons" _ [] [] eq_refl Hin eq_refl).
Defined.

(** X6 at an inline key the schema does not know. *)
Lemma X6_witness :
  exists c,
    getConfig no_virtual_routes sample_JSON_parse file_url (bare_world "/proj")
      (VObj [("verbose", VBool true)]) (Some "/proj") = Ok c
    /\ field "verbose" c = VUndef.
Proof.
  eexists. split; [vm_compute; reflexivity |].
  apply (X6_undeclared_options_dropped no_virtual_routes sample_JSON_parse file_url
           (bare_world "/proj") (VObj [("verbose", VBool true)]) (Some "/proj"));
    [reflexivity |].
  simpl. intuition discriminate.
Defined.

(** X7 at [apiBase]. *)
Lemma X7_witness :
  exists c,
    getConfig no_virtual_routes sample_JSON_parse file_url (bare_world "/proj")
      (VObj [("apiBase", VStr "/rpc")]) (Some "/proj") = Ok c
    /\ same_kind (VStr "/api") (field "apiBase" c) = true.
Proof.
  eexists. split; [vm_compute; reflexivity |].
  apply (X7_defaulted_options_are_typed no_virtual_routes sample_JSON_parse file_url
           (bare_world "/proj") (VObj [("apiBase", VStr "/rpc")]) (Some "/proj")
           _ "apiBase" (ZOptional ZString) (VStr "/api"));
    [reflexivity | simpl; tauto].
Defined.

(** X8 at a generated tree in [.tsx]. *)
Lemma X8_witness :
  field "generatedRouteTree"
    (assign "generatedRouteTree" (VStr (replace_ts_ext "tree.gen.tsx"))
       (VObj [ ("disableTypes", VBool true); ("routesDirectory", VStr "routes");
               ("generatedRouteTree", VStr "tree.gen.tsx") ]))
  = VStr "tree.gen.js".
Proof.
  assert (Hp : has_paths
                 (VObj [ ("disableTypes", VBool true);
                         ("routesDirectory", VStr "routes");
                         ("generatedRouteTree", VStr "tree.gen.tsx") ])
                 "routes" "tree.gen.tsx").
  { split; [eexists; reflexivity | split; reflexivity]. }
  destruct (X8_extension_step _ _ "routes" "tree.gen.tsx" Hp eq_refl) as [_ W].
  destruct (W eq_refl) as (W1 & _). exact W1.
Defined.

(** X9 at a generated tree in a sub-directory. *)
Lemma X9_witness :
  exists out,
    field "generatedRouteTree"
      (match getConfig no_virtual_routes sample_JSON_parse file_url
               (bare_world "/proj")
               (VObj [ ("disableTypes", VBool true);
                       ("generatedRouteTree", VStr "./out/tree.ts") ])
               (Some "/proj") with
       | Ok c => c
       | Throw _ => VUndef
       end) = VStr out
    /\ ends_with ".ts" out = false
    /\ ends_with ".tsx" out = false.
Proof.
  assert (Hfile : names_file "./out/tree.ts" "tree.ts").
  { split; [reflexivity |]. right. now exists "./out". }
  exact (X9_file_paths_lose_the_typed_extension no_virtual_routes sample_JSON_parse
           file_url (bare_world "/proj")
           (VObj [ ("disableTypes", VBool true);
                   ("generatedRouteTree", VStr "./out/tree.ts") ])
           (Some "/proj") _ _ "./out/tree.ts" "tree.ts"
           eq_refl eq_refl Hfile eq_refl eq_refl).
Defined.

(** X10 in a directory that holds both files. *)
Lemma X10_witness :
  existsSync both_files_world "/proj/tsr.config.json" = true.
Proof.
  exact (proj1 (X10_found_file_has_reader sample_JSON_parse file_url
                  both_files_world "/proj" "/proj/tsr.config.json" eq_refl)).
Defined.

(** X11 at a loader that would throw. *)
Lemma X11_witness :
  getConfig no_virtual_routes sample_JSON_parse file_url
    (with_tsImport json_world (fun _ _ => Throw (HostError "boom")))
    (VObj []) (Some "/proj")
  = getConfig no_virtual_routes sample_JSON_parse file_url json_world
      (VObj []) (Some "/proj").
Proof.
  exact (X11_json_file_runs_no_module no_virtual_routes sample_JSON_parse file_url
           json_world (VObj []) (Some "/proj") _ eq_refl).
Defined.

(** X12 at a [readFileSync] that answers the same text for every path. *)
Lemma X12_witness :
  getConfig no_virtual_routes sample_JSON_parse file_url
    (with_readFileSync (script_world "/1") (fun _ => Ok "{}"))
    (VObj []) (Some "/proj")
  = getConfig no_virtual_routes sample_JSON_parse file_url (script_world "/1")
      (VObj []) (Some "/proj").
Proof.
  exact (X12_without_json_reads_no_file no_virtual_routes sample_JSON_parse file_url
           (script_world "/1") (VObj []) (Some "/proj") _ eq_refl).
Defined.

(** X13 at a module without default export. *)
Lemma X13_witness :
  getConfig no_virtual_routes sample_JSON_parse file_url no_default_world
    (VObj [("apiBase", VStr "/rpc")]) (Some "/proj")
  = getConfig no_virtual_routes sample_JSON_parse file_url (bare_world "/proj")
      (VObj [("apiBase", VStr "/rpc")]) (Some "/proj").
Proof.
  assert (Hl : loaded sample_JSON_parse file_url no_default_world "/proj" (Some VUndef)).
  { exists "/proj/tsr.config.js", (readConfig_js file_url).
    repeat split; reflexivity. }
  rewrite (X13_empty_file_contributes_nothing no_virtual_routes sample_JSON_parse
             file_url no_default_world (VObj [("apiBase", VStr "/rpc")])
             (Some "/proj") VUndef [("apiBase", VStr "/rpc")] Hl eq_refl eq_refl).
  vm_compute. reflexivity.
Defined.

(** X14 at [null]. *)
Lemma X14_witness :
  getConfig no_virtual_routes sample_JSON_parse file_url (bare_world "/proj")
    VNull (Some "/proj")
  = Throw (ZodError [[]]).
Proof.
  assert (Hu : VNull <> VUndef) by discriminate.
  assert (Ho : forall props, VNull <> VObj props) by discriminate.
  exact (proj1 (X14_non_object_inline no_virtual_routes sample_JSON_parse file_url
                  (bare_world "/proj") VNull (Some "/proj") Hu Ho) eq_refl).
Defined.

(** X15 at [apiBase]. *)
Lemma X15_witness :
  exists c,
    getConfig no_virtual_routes sample_JSON_parse file_url (bare_world "/proj")
      (VObj [("apiBase", VStr "/rpc")]) (Some "/proj") = Ok c
    /\ field "apiBase" c = VStr "/rpc".
Proof.
  eexists. split; [vm_compute; reflexivity |].
  assert (H1 : "apiBase" <> "routesDirectory") by discriminate.
  assert (H2 : "apiBase" <> "generatedRouteTree") by discriminate.
  exact (X15_other_options_untouched no_virtual_routes sample_JSON_parse file_url
           (bare_world "/proj") (VObj [("apiBase", VStr "/rpc")]) (Some "/proj")
           _ _ "apiBase" eq_refl eq_refl H1 H2).
Defined.

(** X16 at an absolute [routesDirectory]. *)
Lemma X16_witness :
  exists c,
    getConfig no_virtual_routes sample_JSON_parse file_url (bare_world "/proj")
      (VObj [("routesDirectory", VStr "/srv/app/../routes")]) (Some "/proj") = Ok c
    /\ field "routesDirectory" c = VStr "/srv/routes".
Proof.
  eexists. split; [vm_compute; reflexivity |].
  destruct (X16_absolute_declared_paths_stay no_virtual_routes sample_JSON_parse
              file_url (bare_world "/proj")
              (VObj [("routesDirectory", VStr "/srv/app/../routes")]) (Some "/proj")
              _ _ eq_refl eq_refl eq_refl eq_refl)
    as (rd & gt & (_ & Hrd & _) & W & _).
  injection Hrd as <-. exact (W eq_refl).
Defined.

(** X17 at a relative directory. *)
Lemma X17_witness :
  exists c,
    getConfig no_virtual_routes sample_JSON_parse file_url (bare_world "/proj")
      (VObj []) (Some "app") = Ok c
    /\ field "routesDirectory" c = VStr "/proj/app/src/routes".
Proof.
  eexists. split; [vm_compute; reflexivity |].
  destruct (X17_one_formula_for_both_branches no_virtual_routes sample_JSON_parse
              file_url (bare_world "/proj") (VObj []) (Some "app")
              _ _ eq_refl eq_refl eq_refl eq_refl)
    as (rd & gt & (_ & Hrd & _) & W & _).
  injection Hrd as <-. exact W.
Defined.

(** X18 at a call without arguments. *)
Lemma X18_witness :
  exists c,
    getConfig no_virtual_routes sample_JSON_parse file_url (bare_world "/proj")
      VUndef None = Ok c.
Proof.
  destruct (X18_defaults_are_valid no_virtual_routes sample_JSON_parse file_url
              (bare_world "/proj") VUndef None eq_refl eq_refl) as (c & W & _).
  exists c. exact W.
Defined.

(** X19 at a scaffolding that gives one template and one unknown key. *)
Lemma X19_witness :
  exists c out,
    getConfig no_virtual_routes sample_JSON_parse file_url (bare_world "/proj")
      (VObj [("customScaffolding",
              VObj [("routeTemplate", VStr "T"); ("extra", VNum 1)])])
      (Some "/proj") = Ok c
    /\ field "customScaffolding" c = VObj out
    /\ get_prop "routeTemplate" out = VStr "T"
    /\ get_prop "apiTemplate" out = VStr defaultTemplate_apiTemplate
    /\ get_prop "extra" out = VUndef.
Proof.
  eexists.
  destruct (X19_scaffolding_templates_default_separately no_virtual_routes
              sample_JSON_parse file_url (bare_world "/proj")
              (VObj [("customScaffolding",
                      VObj [("routeTemplate", VStr "T"); ("extra", VNum 1)])])
              (Some "/proj") None _ _ eq_refl eq_refl eq_refl)
    as (out & W0 & W1 & W2 & W3).
  exists out. split; [reflexivity |].
  split; [exact W0 |]. split; [exact W1 |]. split; [exact W2 |].
  apply W3; discriminate.
Defined.
